(** * A Next.js blog on a hosted CMS: pages, resolvers and the Express server

    The development embeds the page modules ([pages/index.js], [pages/post.js],
    [pages/categories.js], [pages/category.js], [pages/product.js],
    [pages/products.js]) and the custom server ([server.js]) of the
    repository, and proves what the pages render, what the resolvers ask of
    the content API and how the server answers.

    - [Js]      : JavaScript values as the code meets them (JSON documents)
                  and exceptions.
    - [React]   : elements as [React.createElement] builds them.
    - [Butter]  : the calls of the content API client, promises, and the
                  effects of the code run for a request.
    - [Pages]   : one [getInitialProps] and one [render] per page module.
    - [Server]  : the route table of [server.js] and its handlers. *)

From Stdlib Require Import ZArith Ascii DecimalString.
From stdpp Require Import gmap strings list.

Set Warnings "-register-all".
Local Open Scope Z_scope.

(* ===================================================================== *)
(** ** JavaScript values and effects                                      *)
(* ===================================================================== *)

Module Js.

(** The values the pages receive are JSON documents of the content API and
    query objects of the framework: no functions, no symbols.  Numbers are
    the integers JSON carries here (page indicators, indices, status codes);
    objects are finite maps from property names to values. *)
Inductive value : Type :=
| VUndef
| VNull
| VBool (b : bool)
| VNum (n : Z)
| VStr (s : string)
| VArr (l : list value)
| VObj (o : gmap string value).

(** What a [throw] carries: the engine's [TypeError], or the reason an
    external promise was rejected with. *)
Inductive exn : Type :=
| TypeError
| Reason (v : value).

(** Outcome of a synchronous expression. *)
Inductive result (A : Type) : Type :=
| Ok (a : A)
| Throw (e : exn).
Arguments Ok {A} a.
Arguments Throw {A} e.

Definition rbind {A B} (r : result A) (f : A -> result B) : result B :=
  match r with
  | Ok a => f a
  | Throw e => Throw e
  end.

Declare Scope js_scope.
Delimit Scope js_scope with js.
Notation "'let?' x ':=' r 'in' k" := (rbind r (fun x => k))
  (at level 10, x name, r at level 100, k at level 200) : js_scope.
Local Open Scope js_scope.

(** [null] and [undefined]: the two values a property read throws on. *)
Definition nullish (v : value) : bool :=
  match v with
  | VUndef | VNull => true
  | _ => false
  end.

(** ToBoolean. *)
Definition truthy (v : value) : bool :=
  match v with
  | VUndef | VNull => false
  | VBool b => b
  | VNum n => negb (n =? 0)
  | VStr s => negb (String.eqb s "")
  | VArr _ | VObj _ => true
  end.

(** [a || b] and [a && b] on values already evaluated; the code only uses
    them with a right operand free of effects. *)
Definition or_else (a b : value) : value := if truthy a then a else b.

(** The value of [v.k] when [v] is neither [null] nor [undefined].  Of the
    properties the prototypes of strings and arrays add, only [length] is a
    value; the others are methods, which the pages reach through [map]
    only (see [array_map]). *)
Definition prop (v : value) (k : string) : value :=
  match v with
  | VObj o => default VUndef (o !! k)
  | VArr l => if String.eqb k "length" then VNum (Z.of_nat (length l)) else VUndef
  | VStr s => if String.eqb k "length" then VNum (Z.of_nat (String.length s)) else VUndef
  | _ => VUndef
  end.

(** [v.k]: a [TypeError] on [null] and [undefined]. *)
Definition get_prop (v : value) (k : string) : result value :=
  if nullish v then Throw TypeError else Ok (prop v k).

(** [f] applied to each element with its index, left to right, stopping at
    the first exception. *)
Fixpoint mapi_result {A B} (f : A -> Z -> result B) (i : Z) (l : list A)
  : result (list B) :=
  match l with
  | [] => Ok []
  | x :: rest =>
      let? y := f x i in
      let? ys := mapi_result f (i + 1) rest in
      Ok (y :: ys)
  end.

(** [v.map(f)]: [v] must be an array.  On [null] and [undefined] the read of
    [map] throws; on every other value without a [map] method the call
    does ([v.map is not a function]); both are [TypeError]s. *)
Definition array_map {B} (v : value) (f : value -> Z -> result B)
  : result (list B) :=
  match v with
  | VArr l => mapi_result f 0 l
  | _ => Throw TypeError
  end.

(** The decimal digits of an integer, as JavaScript prints the integers met
    here (page numbers, positions in a list); from 10^21 on JavaScript
    switches to an exponent, which is not modelled. *)
Definition show_Z (n : Z) : string := NilZero.string_of_int (Z.to_int n).

(** ToString, as a template literal applies it to [${v}]. *)
Fixpoint to_string (v : value) : string :=
  match v with
  | VUndef => "undefined"
  | VNull => "null"
  | VBool b => if b then "true" else "false"
  | VNum n => show_Z n
  | VStr s => s
  | VArr l =>
      (fix join (l : list value) : string :=
         match l with
         | [] => ""
         | x :: rest =>
             let sx := if nullish x then "" else to_string x in
             match rest with
             | [] => sx
             | _ => sx +:+ "," +:+ join rest
             end
         end) l
  | VObj _ => "[object Object]"
  end.

End Js.

(* ===================================================================== *)
(** ** React elements                                                     *)
(* ===================================================================== *)

Module React.
Import Js.
Local Open Scope js_scope.

(** What a JSX expression evaluates to: [<t p1={v1} ...>c1 ... cn</t>] is
    [El t [(p1, v1); ...] [c1; ...; cn]], an embedded [{v}] or a literal
    text is [Val v], and an embedded array of elements (the result of a
    [map]) is [Arr].  Lower-case types are host tags, capitalised ones the
    framework's components ([Link], [Head]).  The attribute [key] is not a
    prop: [React.createElement] takes it out of the props and keeps it
    beside them, as a string; [Keyed k e] is the element [e] created with
    the key [k]. *)
Inductive element : Type :=
| Val (v : value)
| Arr (items : list element)
| El (type : string) (props : list (string * value)) (children : list element)
| Keyed (key : string) (e : element).

(** [{v && e}]: the element when [v] is truthy, else the falsy [v] itself,
    left as a child. *)
Definition and_then (v : value) (e : element) : element :=
  if truthy v then e else Val v.

(** The elements of the tree that satisfy [P], in document order. *)
Fixpoint pick (P : element -> bool) (e : element) : list element :=
  match e with
  | Val _ => []
  | Arr items => flat_map (pick P) items
  | El _ _ cs => (if P e then [e] else []) ++ flat_map (pick P) cs
  | Keyed _ e' => pick P e'
  end.

Fixpoint has_type (ty : string) (e : element) : bool :=
  match e with
  | El t _ _ => String.eqb t ty
  | Keyed _ e' => has_type ty e'
  | _ => false
  end.

(** Every element of type [ty] in the tree. *)
Definition select (ty : string) (e : element) : list element :=
  pick (has_type ty) e.

Fixpoint attr (k : string) (e : element) : option value :=
  match e with
  | El _ ps _ => snd <$> List.find (fun p => String.eqb (fst p) k) ps
  | Keyed _ e' => attr k e'
  | _ => None
  end.

Fixpoint children (e : element) : list element :=
  match e with
  | El _ _ cs => cs
  | Arr items => items
  | Keyed _ e' => children e'
  | Val _ => []
  end.

Definition has_prop (k : string) (e : element) : bool :=
  match attr k e with
  | Some _ => true
  | None => false
  end.

(** Every element that sets its content as raw HTML, through the prop
    [dangerouslySetInnerHTML={{__html: ...}}]. *)
Definition raw_html_elements (e : element) : list element :=
  pick (has_prop "dangerouslySetInnerHTML") e.

(** The keys of the tree, in document order. *)
Fixpoint keys (e : element) : list string :=
  match e with
  | Val _ => []
  | Arr items => flat_map keys items
  | El _ _ cs => flat_map keys cs
  | Keyed k e' => k :: keys e'
  end.

(** A link as a reader of the page meets it: target and content. *)
Definition link_view (e : element) : option value * list element :=
  (attr "href" e, children e).

End React.

(* ===================================================================== *)
(** ** The content API client and the effects of a request                *)
(* ===================================================================== *)

Module Butter.
Import Js.

(** The calls the pages and the server make on the client [butter], with
    the arguments as passed. *)
Inductive api_call : Type :=
| PostList (params : value)                         (* butter.post.list(params) *)
| PostRetrieve (slug : value)                       (* butter.post.retrieve(slug) *)
| CategoryList                                      (* butter.category.list() *)
| CategoryRetrieve (slug : value) (options : value) (* butter.category.retrieve(slug, options) *)
| PageList (page_type : string)                     (* butter.page.list(type) *)
| PageRetrieve (page_type : string) (slug : value)  (* butter.page.retrieve(type, slug) *)
| FeedRetrieve (kind : string).                     (* butter.feed.retrieve(kind) *)

(** A promise, seen when the request is over: settled one way or the other,
    or never settled. *)
Inductive promise (A : Type) : Type :=
| Fulfilled (a : A)
| Rejected (e : exn)
| Pending.
Arguments Fulfilled {A} a.
Arguments Rejected {A} e.
Arguments Pending {A}.

(** The two collaborators a request meets: the content API, which answers
    each call with a promise, and the framework's [app.prepare()]. *)
Record collaborators : Type := {
  butter : api_call -> promise value;
  app_prepare : promise unit
}.

(** What the code of a request does to the world outside, besides writing
    the response: it logs, calls the content API, hands the request to the
    framework ([app.render(req, res, pathname, query)], [handle(req, res)]),
    asks it to prepare again, or lets a rejected promise go. *)
Inductive event : Type :=
| ConsoleLog (args : list value)
| ApiCall (c : api_call)
| AppRender (pathname : string) (query : value)
| AppHandle
| AppPrepare
| UnhandledRejection (e : exn).

(** What [res.send] writes as the body: a string as it is, the reason
    phrase of a status code, or the JSON text of a value. *)
Inductive sent : Type :=
| Text (s : string)
| StatusText (code : Z)
| Json (v : value).

(** The Express response object: [res.status(c)] sets [status],
    [res.send(v)] writes a body for [v] and ends the response, [res.end()]
    ends it with nothing written. *)
Record response : Type := {
  status : Z;
  body : option sent;
  ended : bool
}.

Definition fresh_response : response :=
  {| status := 200; body := None; ended := false |}.

Record world : Type := {
  res : response;
  events : list event
}.

Definition start : world := {| res := fresh_response; events := [] |}.

(** A piece of code run for a request: it changes the response, leaves
    events, and completes ([Fulfilled]), throws ([Rejected]) or, inside an
    [async] function, stays suspended at an [await] ([Pending]).  For the
    body of an [async] function the outcome is the promise the function
    returns. *)
Definition js (A : Type) : Type := world -> promise A * world.

Definition ret {A} (a : A) : js A := fun w => (Fulfilled a, w).

Definition bind {A B} (m : js A) (k : A -> js B) : js B :=
  fun w =>
    match m w with
    | (Fulfilled a, w') => k a w'
    | (Rejected e, w') => (Rejected e, w')
    | (Pending, w') => (Pending, w')
    end.

Notation "'do' x '<-' m ';' k" := (bind m (fun x => k))
  (at level 10, x name, m at level 100, k at level 200) : js_scope.
Notation "m ';;' k" := (bind m (fun _ => k))
  (at level 100, k at level 200, right associativity) : js_scope.
Local Open Scope js_scope.

Definition emit (e : event) : js unit :=
  fun w => (Fulfilled tt, {| res := res w; events := events w ++ [e] |}).

(** A synchronous expression inside a handler. *)
Definition lift {A} (r : result A) : js A :=
  fun w =>
    match r with
    | Ok a => (Fulfilled a, w)
    | Throw e => (Rejected e, w)
    end.

(** [await p]. *)
Definition await {A} (p : promise A) : js A := fun w => (p, w).

Definition console_log (args : list value) : js unit := emit (ConsoleLog args).

(** A method of [butter]: the call leaves the process, a promise comes
    back. *)
Definition call (E : collaborators) (c : api_call) : js (promise value) :=
  emit (ApiCall c);; ret (butter E c).

(** [app.prepare()]. *)
Definition prepare (E : collaborators) : js (promise unit) :=
  emit AppPrepare;; ret (app_prepare E).

(** [p.then(f)]: [f] runs when [p] is fulfilled, and what it does settles
    the new promise; a rejection passes through. *)
Definition then_ {A B} (p : promise A) (f : A -> js B) : js (promise B) :=
  fun w =>
    match p with
    | Fulfilled a => let '(out, w') := f a w in (Fulfilled out, w')
    | Rejected e => (Fulfilled (Rejected e), w)
    | Pending => (Fulfilled Pending, w)
    end.

(** [p.catch(g)]: [g] runs when [p] is rejected. *)
Definition catch_ {A} (p : promise A) (g : exn -> js A) : js (promise A) :=
  fun w =>
    match p with
    | Fulfilled a => (Fulfilled (Fulfilled a), w)
    | Rejected e => let '(out, w') := g e w in (Fulfilled out, w')
    | Pending => (Fulfilled Pending, w)
    end.

(** An expression statement whose value is a promise nobody keeps: a
    rejection is then unhandled. *)
Definition discard {A} (p : promise A) : js unit :=
  match p with
  | Rejected e => emit (UnhandledRejection e)
  | _ => ret tt
  end.

Definition set_res (f : response -> response) : js unit :=
  fun w => (Fulfilled tt, {| res := f (res w); events := events w |}).

Definition res_status (c : Z) : js unit :=
  set_res (fun r => {| status := c; body := body r; ended := ended r |}).

Definition res_end : js unit :=
  set_res (fun r => {| status := status r; body := body r; ended := true |}).

(** [res.send(v)] looks at its argument, as Express 4 does: a string is
    the body, untouched; a single number is taken as the status code and the
    body is its reason phrase; a boolean, an array or an object is sent as
    JSON; [null] and [undefined] end the response with nothing written. *)
Definition send (v : value) (r : response) : response :=
  match v with
  | VStr s => {| status := status r; body := Some (Text s); ended := true |}
  | VNum n => {| status := n; body := Some (StatusText n); ended := true |}
  | VBool _ | VArr _ | VObj _ =>
      {| status := status r; body := Some (Json v); ended := true |}
  | VNull | VUndef => {| status := status r; body := None; ended := true |}
  end.

Definition res_send (v : value) : js unit := set_res (send v).

(** The calls to the content API among the events, in order. *)
Definition api_calls (evs : list event) : list api_call :=
  omap (fun e => match e with ApiCall c => Some c | _ => None end) evs.

End Butter.

(* ===================================================================== *)
(** ** The page modules                                                   *)
(* ===================================================================== *)

(** Each page module exports a class with a static [getInitialProps], which
    the framework calls with a context [{ query, ... }] and whose result
    becomes [this.props], and a [render].  [getInitialProps] takes the
    [query] of the context; [render] takes [this.props]. *)
Module Pages.
Import Js React Butter.
Local Open Scope js_scope.

(** *** [pages/index.js] *)
Module Index.

Definition getInitialProps (E : collaborators) (query : value) : js value :=
  do q_page <- lift (get_prop query "page");
  let page := or_else q_page (VNum 1) in
  do p <- call E (PostList (VObj {[ "page" := page; "page_size" := VNum 10 ]}));
  do resp <- await p;
  lift (get_prop resp "data").

Definition post_item (post : value) (_ : Z) : result element :=
  let? slug := get_prop post "slug" in
  let? title := get_prop post "title" in
  Ok (El "div" []
        [El "a" [("href", VStr ("/post/" +:+ to_string slug))] [Val title]]).

Definition render (props : value) : result element :=
  let? meta := get_prop props "meta" in
  let? next_page := get_prop meta "next_page" in
  let? previous_page := get_prop meta "previous_page" in
  let? data := get_prop props "data" in
  let? posts := array_map data post_item in
  Ok (El "div" []
        [Arr posts;
         El "br" [] [];
         El "div" []
           [and_then previous_page
              (El "Link" [("href", VStr ("/?page=" +:+ to_string previous_page))]
                 [El "a" [] [Val (VStr "Prev")]]);
            and_then next_page
              (El "Link" [("href", VStr ("/?page=" +:+ to_string next_page))]
                 [El "a" [] [Val (VStr "Next")]])]]).

End Index.

(** *** [pages/post.js] *)
Module Post.

Definition getInitialProps (E : collaborators) (query : value) : js value :=
  do slug <- lift (get_prop query "slug");
  do p <- call E (PostRetrieve slug);
  do resp <- await p;
  lift (get_prop resp "data").

(** The first [render] of the page: title and body. *)
Definition render_plain (props : value) : result element :=
  let? post := get_prop props "data" in
  let? title := get_prop post "title" in
  let? body := get_prop post "body" in
  Ok (El "div" []
        [El "h1" [] [Val title];
         El "div" [("dangerouslySetInnerHTML", VObj {[ "__html" := body ]})] []]).

(** The [render] of the page once the [Head] is added. *)
Definition render (props : value) : result element :=
  let? post := get_prop props "data" in
  let? seo_title := get_prop post "seo_title" in
  let? meta_description := get_prop post "meta_description" in
  let? featured_image := get_prop post "featured_image" in
  let? title := get_prop post "title" in
  let? body := get_prop post "body" in
  Ok (El "div" []
        [El "Head" []
           [El "title" [] [Val seo_title];
            El "meta" [("name", VStr "description"); ("content", meta_description)] [];
            El "meta" [("name", VStr "og:image"); ("content", featured_image)] []];
         El "h1" [] [Val title];
         El "div" [("dangerouslySetInnerHTML", VObj {[ "__html" := body ]})] []]).

End Post.

(** *** [pages/categories.js] *)
Module Categories.

Definition getInitialProps (E : collaborators) (query : value) : js value :=
  do p <- call E CategoryList;
  do resp <- await p;
  do data <- lift (get_prop resp "data");
  console_log [data];;
  lift (get_prop resp "data").

Definition category_item (category : value) (key : Z) : result element :=
  let? slug := get_prop category "slug" in
  let? name := get_prop category "name" in
  Ok (Keyed (to_string (VNum key))
        (El "div" []
           [El "a" [("href", VStr ("/posts/category/" +:+ to_string slug))]
              [Val name]])).

Definition render (props : value) : result element :=
  let? data := get_prop props "data" in
  let? items := array_map data category_item in
  Ok (El "div" [] [Arr items]).

End Categories.

(** *** [pages/category.js] *)
Module Category.

Definition getInitialProps (E : collaborators) (query : value) : js value :=
  console_log [VStr "query: "; query];;
  do slug <- lift (get_prop query "slug");
  do p <- call E (CategoryRetrieve slug (VObj {[ "include" := VStr "recent_posts" ]}));
  do resp <- await p;
  do data <- lift (get_prop resp "data");
  console_log [VStr "got posts"; data];;
  lift (get_prop resp "data").

Definition post_item (post : value) (key : Z) : result element :=
  let? slug := get_prop post "slug" in
  let? title := get_prop post "title" in
  Ok (Keyed (to_string (VNum key))
        (El "div" []
           [El "a" [("href", VStr ("/posts/" +:+ to_string slug))] [Val title]])).

Definition render (props : value) : result element :=
  let? category := get_prop props "data" in
  let? head_name := get_prop category "name" in
  let? name := get_prop category "name" in
  let? data := get_prop props "data" in
  let? recent_posts := get_prop data "recent_posts" in
  let? items := array_map recent_posts post_item in
  Ok (El "div" []
        [El "Head" [] [El "title" [] [Val head_name]];
         El "h1" [] [Val name];
         El "div" [] [Arr items]]).

End Category.

(** *** [pages/product.js] *)
Module Product.

Definition getInitialProps (E : collaborators) (query : value) : js value :=
  do slug <- lift (get_prop query "slug");
  do p <- call E (PageRetrieve "product" slug);
  do resp <- await p;
  lift (get_prop resp "data").

Definition render (props : value) : result element :=
  let? product := get_prop props "data" in
  let? fields := get_prop product "fields" in
  let? title := get_prop fields "title" in
  let? description := get_prop fields "description" in
  let? price := get_prop fields "price" in
  Ok (El "div" []
        [El "Head" [] [El "title" [] [Val title]];
         El "h1" [] [Val title];
         El "div" [("dangerouslySetInnerHTML", VObj {[ "__html" := description ]})] [];
         El "span" []
           [El "strong" [] [Val (VStr "Price : ")]; Val (VStr " "); Val price]]).

End Product.

(** *** [pages/products.js] *)
Module Products.

Definition getInitialProps (E : collaborators) (query : value) : js value :=
  do p <- call E (PageList "product");
  do resp <- await p;
  lift (get_prop resp "data").

Definition product_item (product : value) (key : Z) : result element :=
  let? slug := get_prop product "slug" in
  let? fields := get_prop product "fields" in
  let? title := get_prop fields "title" in
  Ok (Keyed (to_string (VNum key))
        (El "div" []
           [El "a" [("href", VStr ("/product/" +:+ to_string slug))] [Val title]])).

Definition render (props : value) : result element :=
  let? data := get_prop props "data" in
  let? items := array_map data product_item in
  Ok (El "div" [] [Arr items]).

End Products.

End Pages.

(* ===================================================================== *)
(** ** [server.js]                                                        *)
(* ===================================================================== *)

Module Server.
Import Js React Butter.
Local Open Scope js_scope.

Inductive method : Type := GET | HEAD | POST | PUT | DELETE.

(** The request as the router sees it: the verb and the path of the URL,
    without the query string.  Paths are taken as free of percent-escapes:
    Express matches the path as it was sent, decodes each parameter
    afterwards and answers 400 by itself when an escape is malformed; that
    decoding is not part of the model. *)
Record request : Type := {
  req_method : method;
  req_path : string
}.

(** *** Express path matching *)

Inductive segment : Type :=
| Lit (s : string)
| Param (name : string).

Inductive pattern : Type :=
| Path (segs : list segment)
| Star.

Definition lower_ascii (c : Ascii.ascii) : Ascii.ascii :=
  let n := Ascii.nat_of_ascii c in
  if ((65 <=? n) && (n <=? 90))%nat then Ascii.ascii_of_nat (n + 32) else c.

Fixpoint lower (s : string) : string :=
  match s with
  | EmptyString => EmptyString
  | String c s' => String (lower_ascii c) (lower s')
  end.

Fixpoint split_on_slash (cur : string) (s : string) : list string :=
  match s with
  | EmptyString => [cur]
  | String c s' =>
      if Ascii.eqb c "/"%char then cur :: split_on_slash "" s'
      else split_on_slash (cur +:+ String c "") s'
  end.

(** Routing is not strict: one trailing slash is ignored. *)
Fixpoint strip_trailing (segs : list string) : list string :=
  match segs with
  | [] => []
  | x :: rest =>
      match x, rest with
      | EmptyString, [] => []
      | _, _ => x :: strip_trailing rest
      end
  end.

Definition path_segments (path : string) : list string :=
  strip_trailing
    (match split_on_slash "" path with
     | EmptyString :: segs => segs
     | segs => segs
     end).

(** A literal matches without regard to case, a parameter takes one
    non-empty segment. *)
Fixpoint match_segments (pat : list segment) (segs : list string)
    (params : gmap string string) : option (gmap string string) :=
  match pat, segs with
  | [], [] => Some params
  | Lit l :: pat', s :: segs' =>
      if String.eqb (lower s) (lower l) then match_segments pat' segs' params
      else None
  | Param n :: pat', s :: segs' =>
      if String.eqb s "" then None
      else match_segments pat' segs' (<[n := s]> params)
  | _, _ => None
  end.

Definition match_path (p : pattern) (path : string) : option (gmap string string) :=
  match p with
  | Star => Some ∅
  | Path segs => match_segments segs (path_segments path) ∅
  end.

(** [server.get] also answers [HEAD]. *)
Definition verb_accepts (route_verb req_verb : method) : bool :=
  match route_verb, req_verb with
  | GET, GET | GET, HEAD | POST, POST | HEAD, HEAD | PUT, PUT | DELETE, DELETE => true
  | _, _ => false
  end.

(** [req.params.k]. *)
Definition param (params : gmap string string) (k : string) : value :=
  match params !! k with
  | Some s => VStr s
  | None => VUndef
  end.

(** *** The handlers *)

Definition handler : Type := gmap string string -> collaborators -> js unit.

(** [app.render(req, res, pathname, query)] and [handle(req, res)]: the rest
    of the request is the framework's. *)
Definition app_render (pathname : string) (query : value) : js unit :=
  emit (AppRender pathname query).

Definition handle : js unit := emit AppHandle.

Definition posts : handler := fun params _ =>
  app_render "/index" (VObj {[ "slug" := param params "slug" ]}).

Definition posts_slug : handler := fun params _ =>
  app_render "/post" (VObj {[ "slug" := param params "slug" ]}).

Definition posts_categories : handler := fun _ _ =>
  app_render "/categories" VUndef.

Definition posts_category_slug : handler := fun params _ =>
  app_render "/category" (VObj {[ "slug" := param params "slug" ]}).

Definition products_slug : handler := fun params _ =>
  app_render "/product" (VObj {[ "slug" := param params "slug" ]}).

Definition fallback : handler := fun _ _ => handle.

Definition webhook_receiver : handler := fun _ E =>
  console_log [VStr "a post has been modified"];;
  do p <- prepare E;
  do p1 <- then_ p (fun _ => console_log [VStr "app refreshed"];; res_end);
  do p2 <- catch_ p1 (fun e => res_status 500;; res_end);
  discard p2.

(** The three feed handlers differ in the feed kind only. *)
Definition feed (kind : string) : handler := fun _ E =>
  do p <- call E (FeedRetrieve kind);
  do p1 <- then_ p (fun s =>
             do d <- lift (get_prop s "data");
             do payload <- lift (get_prop d "data");
             res_send payload);
  discard p1.

Definition sitemap : handler := feed "sitemap".
Definition atom : handler := feed "atom".
Definition rss : handler := feed "rss".

(** *** The route table *)

Record route : Type := {
  verb : method;
  path : pattern;
  run : handler
}.

(** The routes in the order the walk-through adds them to [server.js], the
    catch-all [server.get('*')] staying last: behind it no [GET] route would
    ever be reached. *)
Definition routes : list route :=
  [ {| verb := GET;  path := Path [Lit "posts"]; run := posts |};
    {| verb := GET;  path := Path [Lit "posts"; Param "slug"]; run := posts_slug |};
    {| verb := GET;  path := Path [Lit "posts"; Lit "categories"]; run := posts_categories |};
    {| verb := GET;  path := Path [Lit "posts"; Lit "category"; Param "slug"];
       run := posts_category_slug |};
    {| verb := GET;  path := Path [Lit "products"; Param "slug"]; run := products_slug |};
    {| verb := POST; path := Path [Lit "webhook-receiver"]; run := webhook_receiver |};
    {| verb := GET;  path := Path [Lit "sitemap"]; run := sitemap |};
    {| verb := GET;  path := Path [Lit "atom"]; run := atom |};
    {| verb := GET;  path := Path [Lit "rss"]; run := rss |};
    {| verb := GET;  path := Star; run := fallback |} ].

(** The first route, in registration order, that accepts the request; no
    handler of the table calls [next()]. *)
Fixpoint dispatch (rs : list route) (rq : request) : option (collaborators -> js unit) :=
  match rs with
  | [] => None
  | r :: rest =>
      if verb_accepts (verb r) (req_method rq) then
        match match_path (path r) (req_path rq) with
        | Some params => Some (run r params)
        | None => dispatch rest rq
        end
      else dispatch rest rq
  end.

(** The world once the server's own code for the request has run; [None]
    when no route of the table takes the request. *)
Definition serve (E : collaborators) (rq : request) : option world :=
  (fun h => snd (h E start)) <$> dispatch routes rq.

(** *** The pages behind [app.render] *)

(** The [pages/] directory: the module the framework loads for a pathname. *)
Definition page_module (pathname : string)
  : option ((collaborators -> value -> js value) * (value -> result element)) :=
  if String.eqb pathname "/index" then Some (Pages.Index.getInitialProps, Pages.Index.render)
  else if String.eqb pathname "/post" then Some (Pages.Post.getInitialProps, Pages.Post.render)
  else if String.eqb pathname "/categories" then
    Some (Pages.Categories.getInitialProps, Pages.Categories.render)
  else if String.eqb pathname "/category" then
    Some (Pages.Category.getInitialProps, Pages.Category.render)
  else if String.eqb pathname "/product" then
    Some (Pages.Product.getInitialProps, Pages.Product.render)
  else if String.eqb pathname "/products" then
    Some (Pages.Products.getInitialProps, Pages.Products.render)
  else None.

(** What the framework does with a page: the props [getInitialProps]
    resolves to are the props [render] gets. *)
Definition render_page (E : collaborators) (pathname : string) (query : value)
  : option (js element) :=
  match page_module pathname with
  | Some (getInitialProps, render) =>
      Some (do props <- getInitialProps E query; lift (render props))
  | None => None
  end.

End Server.

(* ===================================================================== *)
(** ** Properties                                                         *)
(* ===================================================================== *)

Import Js React Butter Server.
Local Open Scope js_scope.

(** *** Vocabulary of the statements *)

(** Sample inputs: the two pagination examples, a content API that answers,
    one that fails, and small lists. *)
Definition first_page_props : value :=
  VObj {[ "meta" := VObj {[ "previous_page" := VNull; "next_page" := VNum 2 ]};
          "data" := VArr [VObj {[ "slug" := VStr "hello"; "title" := VStr "Hello" ]}] ]}.

Definition last_page_props : value :=
  VObj {[ "meta" := VObj {[ "previous_page" := VNum 1; "next_page" := VNull ]};
          "data" := VArr [] ]}.

Fixpoint no_slash (s : string) : bool :=
  match s with
  | EmptyString => true
  | String c s' => negb (Ascii.eqb c "/"%char) && no_slash s'
  end.

(** A slug as it stands in a URL: one non-empty path segment. *)
Definition is_segment (s : string) : bool :=
  negb (String.eqb s "") && no_slash s.

(** The call each resolver makes, from the query it is given. *)
Definition index_call (query : value) : api_call :=
  PostList (VObj {[ "page" := or_else (prop query "page") (VNum 1);
                    "page_size" := VNum 10 ]}).

Definition post_call (query : value) : api_call :=
  PostRetrieve (prop query "slug").

Definition category_call (query : value) : api_call :=
  CategoryRetrieve (prop query "slug") (VObj {[ "include" := VStr "recent_posts" ]}).

Definition product_call (query : value) : api_call :=
  PageRetrieve "product" (prop query "slug").

(** One external read and nothing else: the resolver calls the content API
    once, with [c]; it does not touch the response; the promise it returns
    is fulfilled with the [data] of the reply when the call is fulfilled,
    rejected with the very reason of the call when the call is rejected,
    and never settled when the call is not. *)
Definition one_read (E : collaborators) (resolver : js value) (c : api_call) : Prop :=
  let '(out, w) := resolver start in
  api_calls (events w) = [c] /\
  res w = fresh_response /\
  (forall resp d, butter E c = Fulfilled resp -> get_prop resp "data" = Ok d ->
     out = Fulfilled d) /\
  (forall e, butter E c = Rejected e -> out = Rejected e) /\
  (butter E c = Pending -> out = Pending).

Definition sample_collaborators : collaborators :=
  {| butter := fun c =>
       match c with
       | FeedRetrieve _ => Fulfilled (VObj {[ "data" := VObj {[ "data" := VStr "<feed/>" ]} ]})
       | PostRetrieve _ =>
           Fulfilled (VObj {[ "data" :=
             VObj {[ "data" := VObj {[ "title" := VStr "Hello"; "body" := VStr "<p>Hi</p>" ]} ]} ]})
       | CategoryList => Fulfilled (VObj {[ "data" := VObj {[ "data" := VArr [] ]} ]})
       | _ => Rejected (Reason (VStr "Not found"))
       end;
     app_prepare := Fulfilled tt |}.

Definition sample_query : value := VObj {[ "slug" := VStr "hello" ]}.

(** The arguments of a call, as passed. *)
Definition call_args (c : api_call) : list value :=
  match c with
  | PostList params => [params]
  | PostRetrieve slug => [slug]
  | CategoryList => []
  | CategoryRetrieve slug options => [slug; options]
  | PageList page_type => [VStr page_type]
  | PageRetrieve page_type slug => [VStr page_type; slug]
  | FeedRetrieve kind => [VStr kind]
  end.

(** The call asks for page [page] in pages of [size] entries. *)
Definition asks_page (c : api_call) (page size : value) : Prop :=
  exists params, In params (call_args c) /\
    prop params "page" = page /\ prop params "page_size" = size.

(** The resolvers of the three list pages. *)
Definition list_resolvers : list (collaborators -> value -> js value) :=
  [Pages.Index.getInitialProps;
   Pages.Categories.getInitialProps;
   Pages.Products.getInitialProps].

Definition calls_of (E : collaborators) (resolver : js value) : list api_call :=
  api_calls (events (snd (resolver start))).

(** The raw HTML of a tree: for each element that sets it, the value of the
    prop and the children beside it. *)
Definition raw_html_view (e : element) : option value * list element :=
  (attr "dangerouslySetInnerHTML" e, children e).

Definition sample_categories : list value :=
  [VObj {[ "slug" := VStr "news"; "name" := VStr "News" ]};
   VObj {[ "slug" := VStr "how-to"; "name" := VStr "How to" ]}].

Definition sample_products : list value :=
  [VObj {[ "slug" := VStr "widget"; "fields" := VObj {[ "title" := VStr "Widget" ]} ]}].

Definition is_array (v : value) : bool :=
  match v with
  | VArr _ => true
  | _ => false
  end.

Definition webhook_request : request :=
  {| req_method := POST; req_path := "/webhook-receiver" |}.

(** The three feed routes: path and feed kind. *)
Definition feed_routes : list (string * string) :=
  [("/sitemap", "sitemap"); ("/atom", "atom"); ("/rss", "rss")].

Definition failing_collaborators : collaborators :=
  {| butter := fun _ => Rejected (Reason (VStr "ECONNREFUSED"));
     app_prepare := Rejected (Reason (VStr "build failed")) |}.

(** A value a property can be read from. *)
Definition defined (v : value) : bool := negb (nullish v).

(** An array all of whose entries are [good]. *)
Definition array_of (good : value -> bool) (v : value) : bool :=
  match v with
  | VArr l => forallb good l
  | _ => false
  end.





Definition post_renderable (props : value) : bool :=
  defined (prop props "data").

Definition product_renderable (props : value) : bool :=
  defined (prop (prop props "data") "fields").

(** The promise an [async] function returns for what its body did. *)
Definition settle {A} (r : result A) : promise A :=
  match r with
  | Ok a => Fulfilled a
  | Throw e => Rejected e
  end.

(** What a resolver that awaits the call [c] and returns [resp.data]
    resolves to. *)
Definition resolved (E : collaborators) (c : api_call) : promise value :=
  match butter E c with
  | Fulfilled resp => settle (get_prop resp "data")
  | Rejected e => Rejected e
  | Pending => Pending
  end.

(** The resolver makes the one call [c], resolves to what that gives, and
    leaves the response alone. *)
Definition resolver_runs (E : collaborators) (resolver : js value) (c : api_call)
  : Prop :=
  exists w, resolver start = (resolved E c, w) /\
            api_calls (events w) = [c] /\ res w = fresh_response.

(** What becomes of a page whose props are the promise [p]. *)
Definition page_outcome (render : value -> result element) (p : promise value)
  : promise element :=
  match p with
  | Fulfilled props => settle (render props)
  | Rejected e => Rejected e
  | Pending => Pending
  end.

(** The calls the six resolvers make on a query. *)
Definition resolver_calls (query : value) : list api_call :=
  [index_call query; post_call query; CategoryList; category_call query;
   product_call query; PageList "product"].

(** The world a feed request of kind [kind] ends in. *)
Definition feed_world (E : collaborators) (kind : string) : world :=
  match butter E (FeedRetrieve kind) with
  | Fulfilled s =>
      if nullish (prop s "data")
      then {| res := fresh_response;
              events := [ApiCall (FeedRetrieve kind); UnhandledRejection TypeError] |}
      else {| res := send (prop (prop s "data") "data") fresh_response;
              events := [ApiCall (FeedRetrieve kind)] |}
  | Rejected e =>
      {| res := fresh_response;
         events := [ApiCall (FeedRetrieve kind); UnhandledRejection e] |}
  | Pending =>
      {| res := fresh_response; events := [ApiCall (FeedRetrieve kind)] |}
  end.

(** The three feed kinds. *)
Definition feed_kinds : list string := ["sitemap"; "atom"; "rss"].

(** The event is a rejection nobody handled. *)
Definition is_unhandled (e : event) : bool :=
  match e with
  | UnhandledRejection _ => true
  | _ => false
  end.



(** The pages the server names in an [app.render]. *)
Definition rendered_pages : list string :=
  ["/index"; "/post"; "/categories"; "/category"; "/product"].

(** How a [meta] element reads: name and content. *)
Definition meta_view (e : element) : option value * option value :=
  (attr "name" e, attr "content" e).

Definition sample_category_reply : value :=
  VObj {[ "data" := VObj {[ "data" :=
    VObj {[ "name" := VStr "News";
            "recent_posts" :=
              VArr [VObj {[ "slug" := VStr "hello"; "title" := VStr "Hello" ]}] ]} ]} ]}.

Definition sample_product_reply : value :=
  VObj {[ "data" := VObj {[ "data" :=
    VObj {[ "slug" := VStr "widget";
            "fields" := VObj {[ "title" := VStr "Widget";
                                "description" := VStr "<p>A widget</p>";
                                "price" := VNum 12 ]} ]} ]} ]}.

(** A content API that knows one category and one product. *)
Definition shop_collaborators : collaborators :=
  {| butter := fun c =>
       match c with
       | CategoryRetrieve _ _ => Fulfilled sample_category_reply
       | PageRetrieve _ _ => Fulfilled sample_product_reply
       | FeedRetrieve _ => Fulfilled (VObj {[ "data" := VNull ]})
       | _ => Pending
       end;
     app_prepare := Pending |}.

(** *** Synchronous expressions *)

Lemma rbind_Ok {A B} (r : result A) (f : A -> result B) (y : B) :
  rbind r f = Ok y -> exists a, r = Ok a /\ f a = Ok y.
Proof. destruct r as [a|e]; simpl; [eauto | discriminate]. Qed.

Lemma get_prop_Ok (v : value) (k : string) (x : value) :
  get_prop v k = Ok x -> nullish v = false /\ x = prop v k.
Proof.
  unfold get_prop. destruct (nullish v); [discriminate|].
  intros [= <-]. done.
Qed.

Lemma get_prop_defined (v : value) (k : string) :
  nullish v = false -> get_prop v k = Ok (prop v k).
Proof. unfold get_prop. by intros ->. Qed.

Lemma get_prop_nullish (v : value) (k : string) :
  nullish v = true -> get_prop v k = Throw TypeError.
Proof. unfold get_prop. by intros ->. Qed.

Lemma prop_nullish (v : value) (k : string) :
  nullish v = true -> prop v k = VUndef.
Proof. by destruct v. Qed.

Lemma array_map_Ok {B} (v : value) (f : value -> Z -> result B) (ys : list B) :
  array_map v f = Ok ys -> exists l, v = VArr l /\ mapi_result f 0 l = Ok ys.
Proof. destruct v; simpl; try discriminate. eauto. Qed.

Lemma mapi_result_Forall {A B} (f : A -> Z -> result B) (P : B -> Prop) :
  (forall x i y, f x i = Ok y -> P y) ->
  forall l i ys, mapi_result f i l = Ok ys -> Forall P ys.
Proof.
  intros Hf l. induction l as [|x l IH]; intros i ys; simpl.
  - intros [= <-]. constructor.
  - intros H. apply rbind_Ok in H as (y & Hy & H).
    apply rbind_Ok in H as (ys' & Hys & H). injection H as <-.
    constructor; eauto.
Qed.

(** When the callback succeeds on every element, so does the [map], and the
    elements of the result are the images, in order. *)
Lemma mapi_result_map {A B} (f : A -> Z -> result B) (g : A -> Z -> B) (l : list A) :
  forall i,
    (forall x j, x ∈ l -> f x j = Ok (g x j)) ->
    mapi_result f i l = Ok (imap (fun n x => g x (i + Z.of_nat n)) l).
Proof.
  induction l as [|x l IH]; intros i Hf; simpl; [done|].
  rewrite Hf by constructor. simpl.
  rewrite IH by (intros; apply Hf; by constructor). simpl.
  rewrite Z.add_0_r. do 2 f_equal.
  apply imap_ext. intros n y _. simpl. f_equal. lia.
Qed.

Lemma flat_map_pick_nil (P : element -> bool) (l : list element) :
  Forall (fun e => pick P e = []) l -> flat_map (pick P) l = [].
Proof. induction 1 as [|e l He _ IH]; simpl; [done|]. by rewrite He, IH. Qed.

Ltac ok_steps H :=
  repeat match type of H with
    | rbind _ _ = Ok _ =>
        let a := fresh "a" in
        let Ha := fresh "Ha" in
        apply rbind_Ok in H as (a & Ha & H)
    end.

(** *** The index page *)

Lemma index_post_item_no_link (post : value) (i : Z) (e : element) :
  Pages.Index.post_item post i = Ok e -> select "Link" e = [].
Proof.
  unfold Pages.Index.post_item. intros H. ok_steps H. by injection H as <-.
Qed.

(** The page renders exactly when the metadata can be read and the data is
    an array of entries that can be read. *)
Lemma index_render_total (props : value) (posts : list value) :
  nullish (prop props "meta") = false ->
  prop props "data" = VArr posts ->
  Forall (fun p => nullish p = false) posts ->
  exists tree, Pages.Index.render props = Ok tree.
Proof.
  intros Hmeta Hdata Hposts. unfold Pages.Index.render.
  assert (nullish props = false) as Hp by (by destruct props).
  rewrite (get_prop_defined props "meta") by done. simpl.
  rewrite !get_prop_defined by done. simpl.
  rewrite Hdata. simpl.
  erewrite (mapi_result_map Pages.Index.post_item
              (fun post _ => El "div" []
                 [El "a" [("href", VStr ("/post/" +:+ to_string (prop post "slug")))]
                    [Val (prop post "title")]])).
  - simpl. eauto.
  - intros x j Hx. unfold Pages.Index.post_item.
    rewrite Forall_forall in Hposts.
    rewrite !get_prop_defined by auto. done.
Qed.

Lemma index_post_item_shape (post : value) (i : Z) (e : element) :
  Pages.Index.post_item post i = Ok e ->
  exists href title, e = El "div" [] [El "a" [("href", href)] [Val title]].
Proof.
  unfold Pages.Index.post_item. intros H. ok_steps H. injection H as <-. eauto.
Qed.

(** C1, as stated, fails on the target of the links: with [next_page] 2
    the page renders a Next link, but to [/?page=2], not to [?page=2]. *)
Lemma index_pagination_target_counterexample :
  ~ (forall (props : value) (tree : element),
       Pages.Index.render props = Ok tree ->
       let previous_page := prop (prop props "meta") "previous_page" in
       let next_page := prop (prop props "meta") "next_page" in
       (In (Some (VStr ("?page=" +:+ to_string previous_page)),
            [El "a" [] [Val (VStr "Prev")]])
           (map link_view (select "Link" tree))
        <-> truthy previous_page = true) /\
       (In (Some (VStr ("?page=" +:+ to_string next_page)),
            [El "a" [] [Val (VStr "Next")]])
           (map link_view (select "Link" tree))
        <-> truthy next_page = true)).
Proof.
  intros H.
  destruct (H first_page_props _ eq_refl) as [_ [_ Hnext]].
  specialize (Hnext eq_refl). vm_compute in Hnext.
  destruct Hnext as [Heq|[]]. discriminate Heq.
Qed.

(** C1, amended.  Whenever the index page renders, its tree is the list of
    post items, a line break and the navigation block, and that block
    holds two children and nothing else: in the first place a link with
    content [<a>Prev</a>] to [/?page=<previous_page>] if and only if
    [meta.previous_page] is truthy, in the second a link with content
    [<a>Next</a>] to [/?page=<next_page>] if and only if [meta.next_page]
    is truthy.  For a falsy indicator, [null] and an absent one among
    them, the place holds the bare indicator and no element: the link is
    absent, not disabled, and no element of the page has a [disabled]
    prop. *)
Theorem index_pagination_links (props : value) (tree : element) :
  Pages.Index.render props = Ok tree ->
  let previous_page := prop (prop props "meta") "previous_page" in
  let next_page := prop (prop props "meta") "next_page" in
  map link_view (select "Link" tree) =
    (if truthy previous_page
     then [(Some (VStr ("/?page=" +:+ to_string previous_page)),
            [El "a" [] [Val (VStr "Prev")]])]
     else [])
    ++
    (if truthy next_page
     then [(Some (VStr ("/?page=" +:+ to_string next_page)),
            [El "a" [] [Val (VStr "Next")]])]
     else []) /\
  (exists items,
     tree =
       El "div" []
         [Arr items;
          El "br" [] [];
          El "div" []
            [if truthy previous_page
             then El "Link" [("href", VStr ("/?page=" +:+ to_string previous_page))]
                    [El "a" [] [Val (VStr "Prev")]]
             else Val previous_page;
             if truthy next_page
             then El "Link" [("href", VStr ("/?page=" +:+ to_string next_page))]
                    [El "a" [] [Val (VStr "Next")]]
             else Val next_page]] /\
     Forall (fun item => exists href title,
                item = El "div" [] [El "a" [("href", href)] [Val title]]) items) /\
  pick (has_prop "disabled") tree = [].
Proof.
  intros H. unfold Pages.Index.render in H. ok_steps H.
  injection H as <-.
  apply get_prop_Ok in Ha as [_ ->].
  apply get_prop_Ok in Ha0 as [_ ->].
  apply get_prop_Ok in Ha1 as [_ ->].
  apply array_map_Ok in Ha3 as (l & _ & Hl).
  pose proof (mapi_result_Forall _ _ index_post_item_shape _ _ _ Hl) as Hshape.
  assert (Forall (fun e => pick (has_type "Link") e = []) a3) as Hlink.
  { eapply Forall_impl; [exact Hshape|]. by intros e (h & t & ->). }
  assert (Forall (fun e => pick (has_prop "disabled") e = []) a3) as Hdis.
  { eapply Forall_impl; [exact Hshape|]. by intros e (h & t & ->). }
  cbv zeta. unfold and_then, select.
  split; [|split].
  - simpl. rewrite (flat_map_pick_nil _ _ Hlink). simpl.
    destruct (truthy (prop (prop props "meta") "previous_page"));
      destruct (truthy (prop (prop props "meta") "next_page")); reflexivity.
  - exists a3. split; [reflexivity|exact Hshape].
  - simpl. rewrite (flat_map_pick_nil _ _ Hdis). simpl.
    destruct (truthy (prop (prop props "meta") "previous_page"));
      destruct (truthy (prop (prop props "meta") "next_page")); reflexivity.
Qed.

Example index_first_page :
  exists tree, Pages.Index.render first_page_props = Ok tree /\
    map link_view (select "Link" tree) =
      [(Some (VStr "/?page=2"), [El "a" [] [Val (VStr "Next")]])].
Proof. eexists. split; reflexivity. Qed.

Example index_last_page :
  exists tree, Pages.Index.render last_page_props = Ok tree /\
    map link_view (select "Link" tree) =
      [(Some (VStr "/?page=1"), [El "a" [] [Val (VStr "Prev")]])].
Proof. eexists. split; reflexivity. Qed.

Lemma index_pagination_links_witness :
  let tree :=
    El "div" []
      [Arr [El "div" [] [El "a" [("href", VStr "/post/hello")] [Val (VStr "Hello")]]];
       El "br" [] [];
       El "div" []
         [Val VNull;
          El "Link" [("href", VStr "/?page=2")] [El "a" [] [Val (VStr "Next")]]]] in
  map link_view (select "Link" tree)
  = [(Some (VStr "/?page=2"), [El "a" [] [Val (VStr "Next")]])] /\
  (exists items,
     tree =
       El "div" []
         [Arr items;
          El "br" [] [];
          El "div" []
            [Val VNull;
             El "Link" [("href", VStr "/?page=2")] [El "a" [] [Val (VStr "Next")]]]] /\
     Forall (fun item => exists href title,
                item = El "div" [] [El "a" [("href", href)] [Val title]]) items) /\
  pick (has_prop "disabled") tree = [].
Proof.
  apply (index_pagination_links first_page_props). vm_compute. reflexivity.
Defined.

(** *** Routing *)

Lemma string_app_nil_l (s : string) : "" +:+ s = s.
Proof. reflexivity. Qed.

Lemma string_app_cons (c : Ascii.ascii) (a b : string) :
  String c a +:+ b = String c (a +:+ b).
Proof. reflexivity. Qed.

Lemma string_app_nil_r (s : string) : s +:+ "" = s.
Proof. induction s as [|c s IH]; [done|]. by rewrite string_app_cons, IH. Qed.

Lemma string_app_assoc (a b c : string) : (a +:+ b) +:+ c = a +:+ (b +:+ c).
Proof.
  induction a as [|x a IH]; [done|]. by rewrite !string_app_cons, IH.
Qed.

Lemma split_no_slash (s cur : string) :
  no_slash s = true -> split_on_slash cur s = [cur +:+ s].
Proof.
  revert cur. induction s as [|c s IH]; intros cur; simpl.
  - intros _. by rewrite string_app_nil_r.
  - destruct (Ascii.eqb c "/"); simpl; [discriminate|].
    intros H. rewrite IH by done. by rewrite string_app_assoc.
Qed.

Lemma is_segment_spec (s : string) :
  is_segment s = true -> String.eqb s "" = false /\ no_slash s = true.
Proof.
  unfold is_segment. intros H. apply andb_prop in H as [H1 H2].
  split; [by destruct (String.eqb s "")|done].
Qed.

Lemma strip_trailing_last (s : string) :
  String.eqb s "" = false -> strip_trailing [s] = [s].
Proof. by destruct s. Qed.

Lemma strip_trailing_cons (c : Ascii.ascii) (a : string) (rest : list string) :
  strip_trailing (String c a :: rest) = String c a :: strip_trailing rest.
Proof. reflexivity. Qed.

Lemma param_insert (k s : string) (params : gmap string string) :
  param (<[k := s]> params) k = VStr s.
Proof. unfold param. by rewrite lookup_insert_eq. Qed.

Lemma split_on_slash_app (a s cur : string) :
  no_slash a = true ->
  split_on_slash cur (a +:+ "/" +:+ s) = (cur +:+ a) :: split_on_slash "" s.
Proof.
  revert cur. induction a as [|c a IH]; intros cur.
  - intros _. by rewrite string_app_nil_l, string_app_nil_r.
  - rewrite string_app_cons. simpl.
    destruct (Ascii.eqb c "/"); simpl; [discriminate|].
    intros H. rewrite IH by done. by rewrite string_app_assoc.
Qed.

(** The segments of [/<a>/<rest>], for a first segment [a]. *)
Lemma path_segments_under (a rest : string) :
  String.eqb a "" = false ->
  no_slash a = true ->
  path_segments ("/" +:+ a +:+ "/" +:+ rest)
  = a :: strip_trailing (split_on_slash "" rest).
Proof.
  intros Hne Hns. unfold path_segments.
  change ("/" +:+ a +:+ "/" +:+ rest) with ("" +:+ "/" +:+ (a +:+ "/" +:+ rest)).
  rewrite (split_on_slash_app "" _ "") by done.
  rewrite (split_on_slash_app a rest "") by done.
  rewrite !string_app_nil_l. destruct a; [discriminate|done].
Qed.

(** [GET /posts/<slug>] reaches the handler of [/posts/:slug], with the slug
    as its parameter. *)
Lemma dispatch_posts_slug (slug : string) :
  is_segment slug = true ->
  dispatch routes {| req_method := GET; req_path := "/posts/" +:+ slug |}
  = Some (posts_slug (<["slug" := slug]> ∅)).
Proof.
  intros H. apply is_segment_spec in H as [Hne Hns].
  unfold routes, dispatch.
  cbn [verb path run req_method req_path verb_accepts match_path].
  change ("/posts/" +:+ slug) with ("/" +:+ "posts" +:+ "/" +:+ slug).
  rewrite (path_segments_under "posts" slug) by done.
  rewrite (split_no_slash slug "") by done. rewrite string_app_nil_l.
  rewrite (strip_trailing_last slug Hne). simpl.
  by rewrite Hne.
Qed.

(** *** The page resolvers *)

Ltac run_resolver E c :=
  unfold one_read, bind, lift, call, await, console_log, emit, ret; simpl;
  destruct (butter E c) as [resp|e|] eqn:Hc; simpl;
  [ destruct (get_prop resp "data") as [d|e'] eqn:Hd; simpl
  | | ];
  repeat split; try done; try congruence.

Lemma categories_one_read (E : collaborators) (query : value) :
  one_read E (Pages.Categories.getInitialProps E query) CategoryList.
Proof. unfold Pages.Categories.getInitialProps. run_resolver E CategoryList. Qed.

Lemma products_one_read (E : collaborators) (query : value) :
  one_read E (Pages.Products.getInitialProps E query) (PageList "product").
Proof. unfold Pages.Products.getInitialProps. run_resolver E (PageList "product"). Qed.

Lemma index_one_read (E : collaborators) (query : value) :
  nullish query = false ->
  one_read E (Pages.Index.getInitialProps E query) (index_call query).
Proof.
  intros Hq. unfold Pages.Index.getInitialProps, index_call.
  rewrite (get_prop_defined query) by done.
  run_resolver E (PostList (VObj {[ "page" := or_else (prop query "page") (VNum 1);
                                    "page_size" := VNum 10 ]})).
Qed.

Lemma post_one_read (E : collaborators) (query : value) :
  nullish query = false ->
  one_read E (Pages.Post.getInitialProps E query) (post_call query).
Proof.
  intros Hq. unfold Pages.Post.getInitialProps, post_call.
  rewrite (get_prop_defined query) by done.
  run_resolver E (PostRetrieve (prop query "slug")).
Qed.

Lemma category_one_read (E : collaborators) (query : value) :
  nullish query = false ->
  one_read E (Pages.Category.getInitialProps E query) (category_call query).
Proof.
  intros Hq. unfold Pages.Category.getInitialProps, category_call.
  rewrite (get_prop_defined query) by done.
  run_resolver E (CategoryRetrieve (prop query "slug")
                    (VObj {[ "include" := VStr "recent_posts" ]})).
Qed.

Lemma product_one_read (E : collaborators) (query : value) :
  nullish query = false ->
  one_read E (Pages.Product.getInitialProps E query) (product_call query).
Proof.
  intros Hq. unfold Pages.Product.getInitialProps, product_call.
  rewrite (get_prop_defined query) by done.
  run_resolver E (PageRetrieve "product" (prop query "slug")).
Qed.

(** C5.  Each of the six resolvers, run on a query object, makes exactly one
    call to the content API, resolves to the [data] of the reply as it is,
    and, when the call is rejected, is rejected with the same reason:
    nothing catches it, nothing is retried, nothing stands in for the
    data. *)
Theorem resolvers_one_external_read (E : collaborators) (query : value) :
  nullish query = false ->
  one_read E (Pages.Index.getInitialProps E query) (index_call query) /\
  one_read E (Pages.Post.getInitialProps E query) (post_call query) /\
  one_read E (Pages.Categories.getInitialProps E query) CategoryList /\
  one_read E (Pages.Category.getInitialProps E query) (category_call query) /\
  one_read E (Pages.Product.getInitialProps E query) (product_call query) /\
  one_read E (Pages.Products.getInitialProps E query) (PageList "product").
Proof.
  intros Hq. repeat split.
  all: first [ by apply index_one_read | by apply post_one_read
             | apply categories_one_read | by apply category_one_read
             | by apply product_one_read | apply products_one_read ].
Qed.

Lemma resolvers_one_external_read_witness :
  one_read sample_collaborators
    (Pages.Index.getInitialProps sample_collaborators sample_query)
    (index_call sample_query) /\
  one_read sample_collaborators
    (Pages.Post.getInitialProps sample_collaborators sample_query)
    (post_call sample_query) /\
  one_read sample_collaborators
    (Pages.Categories.getInitialProps sample_collaborators sample_query)
    CategoryList /\
  one_read sample_collaborators
    (Pages.Category.getInitialProps sample_collaborators sample_query)
    (category_call sample_query) /\
  one_read sample_collaborators
    (Pages.Product.getInitialProps sample_collaborators sample_query)
    (product_call sample_query) /\
  one_read sample_collaborators
    (Pages.Products.getInitialProps sample_collaborators sample_query)
    (PageList "product").
Proof.
  apply (resolvers_one_external_read sample_collaborators sample_query).
  reflexivity.
Defined.

(** *** Pagination arguments of the list resolvers *)

(** C6, as stated, fails: on a query without [page] the resolver of the
    categories page calls [butter.category.list()] with no argument at
    all, so not with page 1 and page size 10. *)
Lemma list_resolvers_pagination_counterexample :
  ~ (forall (E : collaborators) (query : value) resolver c,
       nullish query = false ->
       prop query "page" = VUndef ->
       In resolver list_resolvers ->
       In c (calls_of E (resolver E query)) ->
       asks_page c (VNum 1) (VNum 10)).
Proof.
  intros H.
  destruct (H sample_collaborators sample_query Pages.Categories.getInitialProps
              CategoryList) as (params & Hin & _).
  - reflexivity.
  - reflexivity.
  - right. by left.
  - by left.
  - destruct Hin.
Qed.

(** C6, amended.  The resolver of the index page calls [butter.post.list]
    with [page] set to the query's [page], or to 1 when that is absent (or
    falsy), and with [page_size] 10.  The resolvers of the categories and
    products pages pass no page and no page size: [butter.category.list()]
    takes no argument and [butter.page.list] the page type only. *)
Theorem list_resolvers_pagination (E : collaborators) (query : value) :
  nullish query = false ->
  (exists params,
     calls_of E (Pages.Index.getInitialProps E query) = [PostList params] /\
     prop params "page_size" = VNum 10 /\
     (truthy (prop query "page") = true -> prop params "page" = prop query "page") /\
     (truthy (prop query "page") = false -> prop params "page" = VNum 1) /\
     (prop query "page" = VUndef -> asks_page (PostList params) (VNum 1) (VNum 10))) /\
  calls_of E (Pages.Categories.getInitialProps E query) = [CategoryList] /\
  call_args CategoryList = [] /\
  calls_of E (Pages.Products.getInitialProps E query) = [PageList "product"] /\
  call_args (PageList "product") = [VStr "product"].
Proof.
  intros Hq.
  pose proof (index_one_read E query Hq) as Hi.
  pose proof (categories_one_read E query) as Hc.
  pose proof (products_one_read E query) as Hp.
  unfold one_read, calls_of in *.
  destruct (Pages.Index.getInitialProps E query start) as [o1 w1].
  destruct (Pages.Categories.getInitialProps E query start) as [o2 w2].
  destruct (Pages.Products.getInitialProps E query start) as [o3 w3].
  destruct Hi as (Hi & _), Hc as (Hc & _), Hp as (Hp & _). simpl.
  split; [|done].
  eexists. split; [exact Hi|].
  assert (forall page : value,
            prop (VObj {[ "page" := page; "page_size" := VNum 10 ]}) "page" = page /\
            prop (VObj {[ "page" := page; "page_size" := VNum 10 ]}) "page_size" = VNum 10)
    as Hlook.
  { intros page. simpl. split.
    - by rewrite lookup_insert_eq.
    - rewrite lookup_insert_ne by done. by rewrite lookup_singleton_eq. }
  unfold or_else.
  split; [apply Hlook|]. split; [|split].
  - intros Ht. rewrite Ht. apply Hlook.
  - intros Ht. rewrite Ht. apply Hlook.
  - intros Hu. rewrite Hu. simpl. eexists. split; [by left|]. apply Hlook.
Qed.

Lemma list_resolvers_pagination_witness :
  (exists params,
     calls_of sample_collaborators
       (Pages.Index.getInitialProps sample_collaborators sample_query)
     = [PostList params] /\
     prop params "page_size" = VNum 10 /\
     (truthy (prop sample_query "page") = true ->
      prop params "page" = prop sample_query "page") /\
     (truthy (prop sample_query "page") = false -> prop params "page" = VNum 1) /\
     (prop sample_query "page" = VUndef ->
      asks_page (PostList params) (VNum 1) (VNum 10))) /\
  calls_of sample_collaborators
    (Pages.Categories.getInitialProps sample_collaborators sample_query)
  = [CategoryList] /\
  call_args CategoryList = [] /\
  calls_of sample_collaborators
    (Pages.Products.getInitialProps sample_collaborators sample_query)
  = [PageList "product"] /\
  call_args (PageList "product") = [VStr "product"].
Proof.
  apply (list_resolvers_pagination sample_collaborators sample_query).
  reflexivity.
Defined.

(** *** The post detail page *)

Lemma prop_defined_parent (v : value) (k : string) :
  nullish (prop v k) = false -> nullish v = false.
Proof. by destruct v. Qed.

(** C7.  For a slug that is one path segment and names a post (the content
    API answers [post.retrieve(slug)] with a document whose [data.data] is
    the post), [GET /posts/<slug>] is handed to the page [/post] with that
    slug; the page makes the one call for the post and renders a tree whose
    only [h1] holds the post's title and whose only raw-HTML element sets
    the post's body as its inner HTML, with no child of its own: the body is
    inserted as markup, not as text.  The first version of the page's
    [render] yields the same two elements. *)
Theorem post_detail_page (E : collaborators) (slug : string) (resp : value) :
  is_segment slug = true ->
  butter E (PostRetrieve (VStr slug)) = Fulfilled resp ->
  nullish (prop (prop resp "data") "data") = false ->
  let post := prop (prop resp "data") "data" in
  let query := VObj {[ "slug" := VStr slug ]} in
  serve E {| req_method := GET; req_path := "/posts/" +:+ slug |}
  = Some {| res := fresh_response; events := [AppRender "/post" query] |} /\
  exists page tree w,
    render_page E "/post" query = Some page /\
    page start = (Fulfilled tree, w) /\
    api_calls (events w) = [PostRetrieve (VStr slug)] /\
    select "h1" tree = [El "h1" [] [Val (prop post "title")]] /\
    map raw_html_view (raw_html_elements tree)
    = [(Some (VObj {[ "__html" := prop post "body" ]}), [])] /\
    exists tree',
      Pages.Post.render_plain (prop resp "data") = Ok tree' /\
      select "h1" tree' = select "h1" tree /\
      raw_html_elements tree' = raw_html_elements tree.
Proof.
  intros Hseg Hcall Hpost post query. split.
  - unfold serve. rewrite (dispatch_posts_slug slug Hseg). simpl.
    unfold posts_slug. by rewrite param_insert.
  - assert (nullish (prop resp "data") = false) as Hprops
      by (by apply prop_defined_parent in Hpost).
    assert (nullish resp = false) as Hresp
      by (by apply prop_defined_parent in Hprops).
    assert (post_call query = PostRetrieve (VStr slug)) as Hq.
    { unfold post_call, query. simpl. by rewrite lookup_singleton_eq. }
    pose proof (post_one_read E query eq_refl) as Hread.
    unfold one_read in Hread. rewrite Hq in Hread.
    destruct (Pages.Post.getInitialProps E query start) as [out w] eqn:Hrun.
    destruct Hread as (Hcalls & _ & Hok & _).
    specialize (Hok resp (prop resp "data") Hcall (get_prop_defined _ _ Hresp)).
    subst out.
    assert (forall k, get_prop (prop (prop resp "data") "data") k = Ok (prop post k))
      as Hfield by (intros k; by apply get_prop_defined).
    eexists _, _, w. split; [reflexivity|].
    unfold bind at 1. rewrite Hrun.
    unfold lift, Pages.Post.render.
    rewrite (get_prop_defined (prop resp "data")) by done. simpl.
    rewrite !Hfield. simpl.
    split; [reflexivity|]. split; [done|]. split; [reflexivity|].
    split; [reflexivity|].
    eexists. unfold Pages.Post.render_plain.
    rewrite (get_prop_defined (prop resp "data")) by done. simpl.
    rewrite !Hfield. simpl. split; [reflexivity|]. split; reflexivity.
Qed.

Lemma post_detail_page_witness :
  let resp :=
    VObj {[ "data" :=
      VObj {[ "data" := VObj {[ "title" := VStr "Hello"; "body" := VStr "<p>Hi</p>" ]} ]} ]} in
  let post := prop (prop resp "data") "data" in
  let query := VObj {[ "slug" := VStr "hello" ]} in
  serve sample_collaborators {| req_method := GET; req_path := "/posts/" +:+ "hello" |}
  = Some {| res := fresh_response; events := [AppRender "/post" query] |} /\
  exists page tree w,
    render_page sample_collaborators "/post" query = Some page /\
    page start = (Fulfilled tree, w) /\
    api_calls (events w) = [PostRetrieve (VStr "hello")] /\
    select "h1" tree = [El "h1" [] [Val (prop post "title")]] /\
    map raw_html_view (raw_html_elements tree)
    = [(Some (VObj {[ "__html" := prop post "body" ]}), [])] /\
    exists tree',
      Pages.Post.render_plain (prop resp "data") = Ok tree' /\
      select "h1" tree' = select "h1" tree /\
      raw_html_elements tree' = raw_html_elements tree.
Proof.
  apply (post_detail_page sample_collaborators "hello"); reflexivity.
Defined.

Example post_detail_title_and_body :
  exists page tree w,
    render_page sample_collaborators "/post" sample_query = Some page /\
    page start = (Fulfilled tree, w) /\
    select "h1" tree = [El "h1" [] [Val (VStr "Hello")]] /\
    map raw_html_view (raw_html_elements tree)
    = [(Some (VObj {[ "__html" := VStr "<p>Hi</p>" ]}), [])].
Proof. eexists _, _, _. repeat split. Qed.

(** *** The list pages: categories and products *)

Lemma flat_map_pick_imap {A} (P : element -> bool) (l : list A) :
  forall (G : nat -> A -> element) (F : A -> element),
    (forall n x, pick P (G n x) = [F x]) ->
    flat_map (pick P) (imap G l) = map F l.
Proof.
  induction l as [|x l IH]; intros G F HG; simpl; [done|].
  rewrite HG. simpl. f_equal. apply IH. intros n y. apply HG.
Qed.

Lemma prop_array_parent (v : value) (k : string) (l : list value) :
  prop v k = VArr l -> nullish v = false.
Proof. by destruct v. Qed.

(** A segment after [/posts/category/] reaches the category page. *)
Lemma dispatch_posts_category_slug (slug : string) :
  is_segment slug = true ->
  dispatch routes {| req_method := GET; req_path := "/posts/category/" +:+ slug |}
  = Some (posts_category_slug (<["slug" := slug]> ∅)).
Proof.
  intros H. apply is_segment_spec in H as [Hne Hns].
  unfold routes, dispatch.
  cbn [verb path run req_method req_path verb_accepts match_path].
  change ("/posts/category/" +:+ slug)
    with ("/" +:+ "posts" +:+ "/" +:+ ("category" +:+ "/" +:+ slug)).
  rewrite (path_segments_under "posts") by done.
  rewrite (split_on_slash_app "category" slug "") by done.
  rewrite (split_no_slash slug "") by done. rewrite !string_app_nil_l.
  rewrite strip_trailing_cons, (strip_trailing_last slug Hne). simpl.
  by rewrite Hne.
Qed.

(** C8.  For a category list whose entries are objects, the categories page
    renders, and its anchors are, one per category and in the order of the
    list, a link to [/posts/category/<slug>] whose content is the
    category's name.  The server hands such a target, for a slug that is
    one path segment, to the category page with that slug. *)
Theorem categories_links (E : collaborators) (props : value)
    (categories : list value) :
  prop props "data" = VArr categories ->
  Forall (fun c => nullish c = false) categories ->
  (exists tree,
     Pages.Categories.render props = Ok tree /\
     map link_view (select "a" tree)
     = map (fun c => (Some (VStr ("/posts/category/" +:+ to_string (prop c "slug"))),
                      [Val (prop c "name")]))
         categories) /\
  (forall slug, is_segment slug = true ->
     serve E {| req_method := GET; req_path := "/posts/category/" +:+ slug |}
     = Some {| res := fresh_response;
               events := [AppRender "/category" (VObj {[ "slug" := VStr slug ]})] |}).
Proof.
  intros Hdata Hall. split.
  2: { intros slug Hseg. unfold serve.
       rewrite (dispatch_posts_category_slug slug Hseg). simpl.
       unfold posts_category_slug. by rewrite param_insert. }
  unfold Pages.Categories.render.
  rewrite (get_prop_defined props) by (by eapply prop_array_parent).
  rewrite Hdata. simpl.
  rewrite (mapi_result_map Pages.Categories.category_item
             (fun c key => Keyed (to_string (VNum key)) (El "div" []
                [El "a" [("href", VStr ("/posts/category/" +:+ to_string (prop c "slug")))]
                   [Val (prop c "name")]]))).
  - simpl. eexists. split; [reflexivity|].
    unfold select. simpl. rewrite app_nil_r.
    erewrite flat_map_pick_imap by (intros; reflexivity).
    rewrite map_map. reflexivity.
  - intros c j Hc. rewrite Forall_forall in Hall.
    unfold Pages.Categories.category_item.
    rewrite !get_prop_defined by auto. done.
Qed.

Lemma categories_links_witness :
  (exists tree,
     Pages.Categories.render (VObj {[ "data" := VArr sample_categories ]}) = Ok tree /\
     map link_view (select "a" tree)
     = map (fun c => (Some (VStr ("/posts/category/" +:+ to_string (prop c "slug"))),
                      [Val (prop c "name")]))
         sample_categories) /\
  (forall slug, is_segment slug = true ->
     serve sample_collaborators
       {| req_method := GET; req_path := "/posts/category/" +:+ slug |}
     = Some {| res := fresh_response;
               events := [AppRender "/category" (VObj {[ "slug" := VStr slug ]})] |}).
Proof.
  apply (categories_links sample_collaborators
           (VObj {[ "data" := VArr sample_categories ]})).
  - reflexivity.
  - repeat constructor.
Defined.

Example categories_links_sample :
  exists tree,
    Pages.Categories.render (VObj {[ "data" := VArr sample_categories ]}) = Ok tree /\
    map link_view (select "a" tree)
    = [(Some (VStr "/posts/category/news"), [Val (VStr "News")]);
       (Some (VStr "/posts/category/how-to"), [Val (VStr "How to")])].
Proof. eexists. split; reflexivity. Qed.

(** Whatever follows [/product/], no route but the catch-all takes the
    request. *)
Lemma dispatch_product (rest : string) :
  dispatch routes {| req_method := GET; req_path := "/product/" +:+ rest |}
  = Some (fallback ∅).
Proof.
  unfold routes, dispatch.
  cbn [verb path run req_method req_path verb_accepts match_path].
  change ("/product/" +:+ rest) with ("/" +:+ "product" +:+ "/" +:+ rest).
  rewrite (path_segments_under "product" rest) by done.
  reflexivity.
Qed.

(** A segment after [/products/] reaches the product page. *)
Lemma dispatch_products_slug (slug : string) :
  is_segment slug = true ->
  dispatch routes {| req_method := GET; req_path := "/products/" +:+ slug |}
  = Some (products_slug (<["slug" := slug]> ∅)).
Proof.
  intros H. apply is_segment_spec in H as [Hne Hns].
  unfold routes, dispatch.
  cbn [verb path run req_method req_path verb_accepts match_path].
  change ("/products/" +:+ slug) with ("/" +:+ "products" +:+ "/" +:+ slug).
  rewrite (path_segments_under "products" slug) by done.
  rewrite (split_no_slash slug "") by done. rewrite string_app_nil_l.
  rewrite (strip_trailing_last slug Hne). simpl.
  by rewrite Hne.
Qed.

(** C9.  For a product list whose entries are objects with fields, the
    products page renders, and its anchors are, one per product in order,
    a link to [/product/<slug>] whose content is the product's title.  No
    path under [/product/] is taken by a route other than the catch-all, so
    the server hands each of these links to the framework's default
    handler, while the product page is registered under
    [/products/:slug]. *)
Theorem products_links_miss_route (E : collaborators) (props : value)
    (products : list value) :
  prop props "data" = VArr products ->
  Forall (fun p => nullish p = false /\ nullish (prop p "fields") = false) products ->
  (exists tree,
     Pages.Products.render props = Ok tree /\
     map link_view (select "a" tree)
     = map (fun p => (Some (VStr ("/product/" +:+ to_string (prop p "slug"))),
                      [Val (prop (prop p "fields") "title")]))
         products) /\
  (forall rest,
     serve E {| req_method := GET; req_path := "/product/" +:+ rest |}
     = Some {| res := fresh_response; events := [AppHandle] |}) /\
  (forall slug, is_segment slug = true ->
     serve E {| req_method := GET; req_path := "/products/" +:+ slug |}
     = Some {| res := fresh_response;
               events := [AppRender "/product" (VObj {[ "slug" := VStr slug ]})] |}).
Proof.
  intros Hdata Hall. split; [|split].
  - unfold Pages.Products.render.
    rewrite (get_prop_defined props) by (by eapply prop_array_parent).
    rewrite Hdata. simpl.
    rewrite (mapi_result_map Pages.Products.product_item
               (fun p key => Keyed (to_string (VNum key)) (El "div" []
                  [El "a" [("href", VStr ("/product/" +:+ to_string (prop p "slug")))]
                     [Val (prop (prop p "fields") "title")]]))).
    + simpl. eexists. split; [reflexivity|].
      unfold select. simpl. rewrite app_nil_r.
      erewrite flat_map_pick_imap by (intros; reflexivity).
      rewrite map_map. reflexivity.
    + intros p j Hp. rewrite Forall_forall in Hall.
      destruct (Hall p Hp) as [Hp1 Hp2].
      unfold Pages.Products.product_item.
      rewrite !(get_prop_defined p) by done. simpl.
      rewrite get_prop_defined by done. done.
  - intros rest. unfold serve. by rewrite dispatch_product.
  - intros slug Hseg. unfold serve. rewrite (dispatch_products_slug slug Hseg).
    simpl. unfold products_slug. by rewrite param_insert.
Qed.

Lemma products_links_miss_route_witness :
  (exists tree,
     Pages.Products.render (VObj {[ "data" := VArr sample_products ]}) = Ok tree /\
     map link_view (select "a" tree)
     = map (fun p => (Some (VStr ("/product/" +:+ to_string (prop p "slug"))),
                      [Val (prop (prop p "fields") "title")]))
         sample_products) /\
  (forall rest,
     serve sample_collaborators {| req_method := GET; req_path := "/product/" +:+ rest |}
     = Some {| res := fresh_response; events := [AppHandle] |}) /\
  (forall slug, is_segment slug = true ->
     serve sample_collaborators {| req_method := GET; req_path := "/products/" +:+ slug |}
     = Some {| res := fresh_response;
               events := [AppRender "/product" (VObj {[ "slug" := VStr slug ]})] |}).
Proof.
  apply (products_links_miss_route sample_collaborators
           (VObj {[ "data" := VArr sample_products ]})).
  - reflexivity.
  - repeat constructor.
Defined.

Example products_link_sample :
  exists tree,
    Pages.Products.render (VObj {[ "data" := VArr sample_products ]}) = Ok tree /\
    map link_view (select "a" tree)
    = [(Some (VStr "/product/widget"), [Val (VStr "Widget")])] /\
    events <$> serve sample_collaborators
                 {| req_method := GET; req_path := "/product/widget" |}
    = Some [AppHandle].
Proof. eexists. repeat split. Qed.

(** *** The category page *)

(** C10.  When the [recent_posts] of the category payload is anything but
    an array, absent included, [render] throws a [TypeError]: it reads the
    property and maps over it without a test. *)
Theorem category_render_needs_recent_posts (props : value) :
  is_array (prop (prop props "data") "recent_posts") = false ->
  Pages.Category.render props = Throw TypeError.
Proof.
  intros Harr. unfold Pages.Category.render, get_prop.
  destruct (nullish props); [done|]. simpl.
  destruct (nullish (prop props "data")); [done|]. simpl.
  destruct (prop (prop props "data") "recent_posts"); try done.
Qed.

Lemma category_render_needs_recent_posts_witness :
  Pages.Category.render (VObj {[ "data" := VObj {[ "name" := VStr "News" ]} ]})
  = Throw TypeError.
Proof.
  apply (category_render_needs_recent_posts
           (VObj {[ "data" := VObj {[ "name" := VStr "News" ]} ]})).
  reflexivity.
Defined.

(** With an array of posts that are objects, the page renders. *)
Lemma category_render_total (props : value) (posts : list value) :
  prop (prop props "data") "recent_posts" = VArr posts ->
  Forall (fun p => nullish p = false) posts ->
  exists tree,
    Pages.Category.render props = Ok tree /\
    map link_view (select "a" tree)
    = map (fun p => (Some (VStr ("/posts/" +:+ to_string (prop p "slug"))),
                     [Val (prop p "title")]))
        posts.
Proof.
  intros Hposts Hall. unfold Pages.Category.render.
  assert (nullish (prop props "data") = false) as Hd
    by (by eapply prop_array_parent).
  assert (nullish props = false) as Hp by (by apply prop_defined_parent in Hd).
  rewrite !(get_prop_defined props) by done. simpl.
  rewrite !(get_prop_defined (prop props "data")) by done. simpl.
  rewrite Hposts. simpl.
  rewrite (mapi_result_map Pages.Category.post_item
             (fun p key => Keyed (to_string (VNum key)) (El "div" []
                [El "a" [("href", VStr ("/posts/" +:+ to_string (prop p "slug")))]
                   [Val (prop p "title")]]))).
  - simpl. eexists. split; [reflexivity|].
    unfold select. simpl.
    erewrite flat_map_pick_imap by (intros; reflexivity).
    rewrite !app_nil_r, map_map. reflexivity.
  - intros p j Hp'. rewrite Forall_forall in Hall.
    unfold Pages.Category.post_item.
    rewrite !get_prop_defined by auto. done.
Qed.

Example category_render_object_posts :
  Pages.Category.render
    (VObj {[ "data" := VObj {[ "name" := VStr "News";
                               "recent_posts" := VObj {[ "0" := VNull ]} ]} ]})
  = Throw TypeError.
Proof. reflexivity. Qed.

(** *** The webhook receiver and the feed routes *)

(** C2.  A [POST /webhook-receiver] asks the framework to prepare again,
    once.  When that is fulfilled the response is ended with the status
    left at 200 and nothing written; when it is rejected the response is
    ended with status 500 and nothing written, and the rejection is
    handled; while it stays unsettled the response is left open. *)
Theorem webhook_receiver_response (E : collaborators) :
  serve E webhook_request =
  Some
    match app_prepare E with
    | Fulfilled _ =>
        {| res := {| status := 200; body := None; ended := true |};
           events := [ConsoleLog [VStr "a post has been modified"]; AppPrepare;
                      ConsoleLog [VStr "app refreshed"]] |}
    | Rejected _ =>
        {| res := {| status := 500; body := None; ended := true |};
           events := [ConsoleLog [VStr "a post has been modified"]; AppPrepare] |}
    | Pending =>
        {| res := fresh_response;
           events := [ConsoleLog [VStr "a post has been modified"]; AppPrepare] |}
    end.
Proof.
  change (serve E webhook_request)
    with (Some (snd (webhook_receiver ∅ E start))).
  f_equal. unfold webhook_receiver, bind, prepare, console_log, emit, ret. simpl.
  destruct (app_prepare E) as [[]|e|]; reflexivity.
Qed.

Lemma serve_feed (E : collaborators) (path kind : string) :
  In (path, kind) feed_routes ->
  serve E {| req_method := GET; req_path := path |}
  = Some (snd (feed kind ∅ E start)).
Proof.
  intros [H|[H|[H|[]]]]; injection H as <- <-; reflexivity.
Qed.

(** C3.  A [GET] on [/sitemap], [/atom] or [/rss] makes one call to the
    content API, [feed.retrieve] of the matching kind, and nothing is kept
    from one request to the next; when the call is fulfilled with a reply
    [s] whose payload [s.data.data] is a string, as a feed is, the response
    is ended with that very string as its body and the status left at
    200. *)
Theorem feed_proxy_passthrough (E : collaborators) (path kind : string) :
  In (path, kind) feed_routes ->
  exists w,
    serve E {| req_method := GET; req_path := path |} = Some w /\
    api_calls (events w) = [FeedRetrieve kind] /\
    forall s payload,
      butter E (FeedRetrieve kind) = Fulfilled s ->
      prop (prop s "data") "data" = VStr payload ->
      w = {| res := {| status := 200; body := Some (Text payload); ended := true |};
             events := [ApiCall (FeedRetrieve kind)] |}.
Proof.
  intros Hin. eexists. split; [by apply serve_feed|].
  unfold feed, bind, call, lift, discard, emit, ret. simpl.
  destruct (butter E (FeedRetrieve kind)) as [s|e|] eqn:Hs; simpl.
  - unfold get_prop.
    destruct (nullish s) eqn:Hn; simpl.
    + split; [done|]. intros s' payload [= <-] Hd.
      by rewrite (prop_nullish s "data" Hn) in Hd.
    + destruct (nullish (prop s "data")) eqn:Hd; simpl.
      * split; [done|]. intros s' payload [= <-] Hp.
        by rewrite (prop_nullish _ "data" Hd) in Hp.
      * split; [done|]. intros s' payload [= <-] Hp.
        unfold res_send, set_res, send. simpl. by rewrite Hp.
  - split; [done|]. intros s' payload [=].
  - split; [done|]. intros s' payload [=].
Qed.

Lemma feed_proxy_passthrough_witness :
  exists w,
    serve sample_collaborators {| req_method := GET; req_path := "/rss" |} = Some w /\
    api_calls (events w) = [FeedRetrieve "rss"] /\
    forall s payload,
      butter sample_collaborators (FeedRetrieve "rss") = Fulfilled s ->
      prop (prop s "data") "data" = VStr payload ->
      w = {| res := {| status := 200; body := Some (Text payload); ended := true |};
             events := [ApiCall (FeedRetrieve "rss")] |}.
Proof.
  apply (feed_proxy_passthrough sample_collaborators "/rss" "rss").
  simpl. right. right. left. reflexivity.
Defined.

Example feed_rss_sample :
  serve sample_collaborators {| req_method := GET; req_path := "/rss" |}
  = Some {| res := {| status := 200; body := Some (Text "<feed/>"); ended := true |};
            events := [ApiCall (FeedRetrieve "rss")] |}.
Proof. reflexivity. Qed.

(** C4.  When the call of a feed route is rejected, nothing handles the
    rejection and the response is left as it was: not ended, nothing
    written, no status set. *)
Theorem feed_rejection_unhandled (E : collaborators) (path kind : string) (e : exn) :
  In (path, kind) feed_routes ->
  butter E (FeedRetrieve kind) = Rejected e ->
  serve E {| req_method := GET; req_path := path |}
  = Some {| res := fresh_response;
            events := [ApiCall (FeedRetrieve kind); UnhandledRejection e] |}.
Proof.
  intros Hin He. rewrite (serve_feed E path kind Hin). f_equal.
  unfold feed, bind, call, lift, discard, emit, ret. simpl.
  by rewrite He.
Qed.

Lemma feed_rejection_unhandled_witness :
  serve failing_collaborators {| req_method := GET; req_path := "/sitemap" |}
  = Some {| res := fresh_response;
            events := [ApiCall (FeedRetrieve "sitemap");
                       UnhandledRejection (Reason (VStr "ECONNREFUSED"))] |}.
Proof.
  apply (feed_rejection_unhandled failing_collaborators "/sitemap" "sitemap").
  - simpl. left. reflexivity.
  - reflexivity.
Defined.

Example webhook_failure_sample :
  serve failing_collaborators webhook_request
  = Some {| res := {| status := 500; body := None; ended := true |};
            events := [ConsoleLog [VStr "a post has been modified"]; AppPrepare] |}.
Proof. reflexivity. Qed.

(* ===================================================================== *)
(** ** Further properties of the pages and the server                     *)
(* ===================================================================== *)

(** *** When a page renders *)

Lemma defined_parent (v : value) (k : string) :
  defined (prop v k) = true -> nullish v = false.
Proof.
  unfold defined. intros H. apply (prop_defined_parent v k).
  by destruct (nullish (prop v k)).
Qed.

Lemma array_of_parent (good : value -> bool) (v : value) (k : string) :
  array_of good (prop v k) = true -> nullish v = false.
Proof. by destruct v. Qed.









(** X2.  The two detail pages render exactly when the document can be
    read, and throw a [TypeError] otherwise: the post page (in both
    versions of its [render]) needs a [data] that is neither [null] nor
    [undefined], the product page a [data] with such [fields].  Missing
    fields of the document itself never make them throw. *)
Theorem detail_pages_render_iff (props : value) :
  (if post_renderable props
   then (exists tree, Pages.Post.render props = Ok tree) /\
        (exists tree, Pages.Post.render_plain props = Ok tree)
   else Pages.Post.render props = Throw TypeError /\
        Pages.Post.render_plain props = Throw TypeError) /\
  (if product_renderable props
   then exists tree, Pages.Product.render props = Ok tree
   else Pages.Product.render props = Throw TypeError).
Proof.
  split.
  - unfold post_renderable, defined, Pages.Post.render, Pages.Post.render_plain,
      get_prop.
    destruct (nullish props) eqn:Hp; simpl.
    { by rewrite (prop_nullish props "data" Hp). }
    destruct (nullish (prop props "data")); simpl; eauto.
  - unfold product_renderable, defined, Pages.Product.render, get_prop.
    destruct (nullish props) eqn:Hp; simpl.
    { by rewrite (prop_nullish props "data" Hp). }
    destruct (nullish (prop props "data")) eqn:Hd; simpl.
    { by rewrite (prop_nullish (prop props "data") "fields" Hd). }
    destruct (nullish (prop (prop props "data") "fields")); simpl; eauto.
Qed.

(** *** What the pages render, entry by entry *)

Lemma mapi_result_items {A B} (f : A -> Z -> result B) (g : A -> Z -> B) (l : list A) :
  (forall x j, x ∈ l -> f x j = Ok (g x j)) ->
  mapi_result f 0 l = Ok (imap (fun n x => g x (Z.of_nat n)) l).
Proof.
  intros Hf. by rewrite (mapi_result_map f g l 0 Hf).
Qed.

Lemma flat_map_pick_imap_idx {A} (P : element -> bool) (l : list A) :
  forall (G : nat -> A -> element) (F : nat -> A -> element),
    (forall n x, pick P (G n x) = [F n x]) ->
    flat_map (pick P) (imap G l) = imap F l.
Proof.
  induction l as [|x l IH]; intros G F HG; simpl; [done|].
  rewrite HG. simpl. f_equal. apply IH. intros n y. apply HG.
Qed.

Lemma flat_map_pick_imap_nil {A} (P : element -> bool) (l : list A) :
  forall (G : nat -> A -> element),
    (forall n x, pick P (G n x) = []) ->
    flat_map (pick P) (imap G l) = [].
Proof.
  induction l as [|x l IH]; intros G HG; simpl; [done|].
  rewrite HG. simpl. apply IH. intros n y. apply HG.
Qed.

Lemma flat_map_keys_imap {A} (l : list A) :
  forall (G : nat -> A -> element) (K : nat -> A -> string),
    (forall n x, keys (G n x) = [K n x]) ->
    flat_map keys (imap G l) = imap K l.
Proof.
  induction l as [|x l IH]; intros G K HG; simpl; [done|].
  rewrite HG. simpl. f_equal. apply IH. intros n y. apply HG.
Qed.

Lemma flat_map_keys_imap_nil {A} (l : list A) :
  forall (G : nat -> A -> element),
    (forall n x, keys (G n x) = []) ->
    flat_map keys (imap G l) = [].
Proof.
  induction l as [|x l IH]; intros G HG; simpl; [done|].
  rewrite HG. simpl. apply IH. intros n y. apply HG.
Qed.

Lemma imap_const {A B} (f : A -> B) (l : list A) :
  imap (fun _ x => f x) l = map f l.
Proof. induction l as [|x l IH]; simpl; [done|]. f_equal. exact IH. Qed.

Lemma map_imap {A B C} (h : B -> C) (f : nat -> A -> B) (l : list A) :
  map h (imap f l) = imap (fun n x => h (f n x)) l.
Proof.
  revert f. induction l as [|x l IH]; intros f; simpl; [done|].
  f_equal. apply IH.
Qed.

Lemma get_prop_singleton (k : string) (v : value) :
  get_prop (VObj {[ k := v ]}) k = Ok v.
Proof. unfold get_prop. simpl. by rewrite lookup_singleton_eq. Qed.

Lemma index_render_tree (props : value) (posts : list value) :
  nullish (prop props "meta") = false ->
  prop props "data" = VArr posts ->
  Forall (fun p => nullish p = false) posts ->
  Pages.Index.render props
  = Ok (El "div" []
          [Arr (map (fun post => El "div" []
                       [El "a" [("href", VStr ("/post/" +:+ to_string (prop post "slug")))]
                          [Val (prop post "title")]]) posts);
           El "br" [] [];
           El "div" []
             [and_then (prop (prop props "meta") "previous_page")
                (El "Link"
                   [("href", VStr ("/?page=" +:+
                                   to_string (prop (prop props "meta") "previous_page")))]
                   [El "a" [] [Val (VStr "Prev")]]);
              and_then (prop (prop props "meta") "next_page")
                (El "Link"
                   [("href", VStr ("/?page=" +:+
                                   to_string (prop (prop props "meta") "next_page")))]
                   [El "a" [] [Val (VStr "Next")]])]]).
Proof.
  intros Hmeta Hdata Hposts. unfold Pages.Index.render.
  assert (nullish props = false) as Hp by (by apply prop_defined_parent in Hmeta).
  rewrite (get_prop_defined props "meta") by done. simpl.
  rewrite !get_prop_defined by done. simpl.
  rewrite Hdata. simpl.
  rewrite (mapi_result_items Pages.Index.post_item
             (fun post _ => El "div" []
                [El "a" [("href", VStr ("/post/" +:+ to_string (prop post "slug")))]
                   [Val (prop post "title")]])).
  - simpl. by rewrite imap_const.
  - intros x j Hx. unfold Pages.Index.post_item.
    rewrite Forall_forall in Hposts.
    rewrite !get_prop_defined by auto. done.
Qed.

Lemma categories_render_tree (props : value) (categories : list value) :
  prop props "data" = VArr categories ->
  Forall (fun c => nullish c = false) categories ->
  Pages.Categories.render props
  = Ok (El "div" []
          [Arr (imap (fun n c => Keyed (to_string (VNum (Z.of_nat n))) (El "div" []
                  [El "a" [("href", VStr ("/posts/category/" +:+
                                          to_string (prop c "slug")))]
                     [Val (prop c "name")]])) categories)]).
Proof.
  intros Hdata Hall. unfold Pages.Categories.render.
  rewrite (get_prop_defined props) by (by eapply prop_array_parent).
  rewrite Hdata. simpl.
  rewrite (mapi_result_items Pages.Categories.category_item
             (fun c key => Keyed (to_string (VNum key)) (El "div" []
                [El "a" [("href", VStr ("/posts/category/" +:+ to_string (prop c "slug")))]
                   [Val (prop c "name")]]))); [done|].
  intros c j Hc. rewrite Forall_forall in Hall.
  unfold Pages.Categories.category_item.
  rewrite !get_prop_defined by auto. done.
Qed.

Lemma products_render_tree (props : value) (products : list value) :
  prop props "data" = VArr products ->
  Forall (fun p => nullish p = false /\ nullish (prop p "fields") = false) products ->
  Pages.Products.render props
  = Ok (El "div" []
          [Arr (imap (fun n p => Keyed (to_string (VNum (Z.of_nat n))) (El "div" []
                  [El "a" [("href", VStr ("/product/" +:+ to_string (prop p "slug")))]
                     [Val (prop (prop p "fields") "title")]])) products)]).
Proof.
  intros Hdata Hall. unfold Pages.Products.render.
  rewrite (get_prop_defined props) by (by eapply prop_array_parent).
  rewrite Hdata. simpl.
  rewrite (mapi_result_items Pages.Products.product_item
             (fun p key => Keyed (to_string (VNum key)) (El "div" []
                [El "a" [("href", VStr ("/product/" +:+ to_string (prop p "slug")))]
                   [Val (prop (prop p "fields") "title")]]))); [done|].
  intros p j Hp. rewrite Forall_forall in Hall.
  destruct (Hall p Hp) as [Hp1 Hp2].
  unfold Pages.Products.product_item.
  rewrite !(get_prop_defined p) by done. simpl.
  rewrite get_prop_defined by done. done.
Qed.

Lemma category_render_tree (props : value) (posts : list value) :
  prop (prop props "data") "recent_posts" = VArr posts ->
  Forall (fun p => nullish p = false) posts ->
  Pages.Category.render props
  = Ok (El "div" []
          [El "Head" [] [El "title" [] [Val (prop (prop props "data") "name")]];
           El "h1" [] [Val (prop (prop props "data") "name")];
           El "div" []
             [Arr (imap (fun n p => Keyed (to_string (VNum (Z.of_nat n))) (El "div" []
                     [El "a" [("href", VStr ("/posts/" +:+ to_string (prop p "slug")))]
                        [Val (prop p "title")]])) posts)]]).
Proof.
  intros Hposts Hall. unfold Pages.Category.render.
  assert (nullish (prop props "data") = false) as Hd
    by (by eapply prop_array_parent).
  assert (nullish props = false) as Hp by (by apply prop_defined_parent in Hd).
  rewrite !(get_prop_defined props) by done. simpl.
  rewrite !(get_prop_defined (prop props "data")) by done. simpl.
  rewrite Hposts. simpl.
  rewrite (mapi_result_items Pages.Category.post_item
             (fun p key => Keyed (to_string (VNum key)) (El "div" []
                [El "a" [("href", VStr ("/posts/" +:+ to_string (prop p "slug")))]
                   [Val (prop p "title")]]))); [done|].
  intros p j Hp'. rewrite Forall_forall in Hall.
  unfold Pages.Category.post_item.
  rewrite !get_prop_defined by auto. done.
Qed.

(** Whatever follows [/post/], no route but the catch-all takes the
    request. *)
Lemma dispatch_post (rest : string) :
  dispatch routes {| req_method := GET; req_path := "/post/" +:+ rest |}
  = Some (fallback ∅).
Proof.
  unfold routes, dispatch.
  cbn [verb path run req_method req_path verb_accepts match_path].
  change ("/post/" +:+ rest) with ("/" +:+ "post" +:+ "/" +:+ rest).
  rewrite (path_segments_under "post" rest) by done.
  reflexivity.
Qed.

(** X3.  On props it can read, the index page has one anchor per post, in
    order, to [/post/<slug>] with the post's title as content, followed by
    the anchors of the pagination links.  No path under [/post/] is taken
    by a route other than the catch-all: the post page is registered under
    [/posts/:slug], so the links of the index page do not reach it. *)
Theorem index_post_links_miss_route (E : collaborators) (props : value)
    (posts : list value) :
  nullish (prop props "meta") = false ->
  prop props "data" = VArr posts ->
  Forall (fun p => nullish p = false) posts ->
  (exists tree,
     Pages.Index.render props = Ok tree /\
     map link_view (select "a" tree)
     = map (fun p => (Some (VStr ("/post/" +:+ to_string (prop p "slug"))),
                      [Val (prop p "title")])) posts
       ++ (if truthy (prop (prop props "meta") "previous_page")
           then [(None, [Val (VStr "Prev")])] else [])
       ++ (if truthy (prop (prop props "meta") "next_page")
           then [(None, [Val (VStr "Next")])] else [])) /\
  (forall rest,
     serve E {| req_method := GET; req_path := "/post/" +:+ rest |}
     = Some {| res := fresh_response; events := [AppHandle] |}) /\
  (forall slug, is_segment slug = true ->
     serve E {| req_method := GET; req_path := "/posts/" +:+ slug |}
     = Some {| res := fresh_response;
               events := [AppRender "/post" (VObj {[ "slug" := VStr slug ]})] |}).
Proof.
  intros Hmeta Hdata Hall. split; [|split].
  - eexists. split; [by apply index_render_tree|].
    unfold select. simpl.
    rewrite <- (imap_const (fun post => El "div" [] _) posts).
    erewrite flat_map_pick_imap by (intros; reflexivity).
    rewrite !map_app, map_map. f_equal.
    unfold and_then.
    destruct (truthy (prop (prop props "meta") "previous_page"));
      destruct (truthy (prop (prop props "meta") "next_page")); reflexivity.
  - intros rest. unfold serve. by rewrite dispatch_post.
  - intros slug Hseg. unfold serve. rewrite (dispatch_posts_slug slug Hseg).
    simpl. unfold posts_slug. by rewrite param_insert.
Qed.

Lemma index_post_links_miss_route_witness :
  (exists tree,
     Pages.Index.render first_page_props = Ok tree /\
     map link_view (select "a" tree)
     = map (fun p => (Some (VStr ("/post/" +:+ to_string (prop p "slug"))),
                      [Val (prop p "title")]))
         [VObj {[ "slug" := VStr "hello"; "title" := VStr "Hello" ]}]
       ++ (if truthy (prop (prop first_page_props "meta") "previous_page")
           then [(None, [Val (VStr "Prev")])] else [])
       ++ (if truthy (prop (prop first_page_props "meta") "next_page")
           then [(None, [Val (VStr "Next")])] else [])) /\
  (forall rest,
     serve sample_collaborators {| req_method := GET; req_path := "/post/" +:+ rest |}
     = Some {| res := fresh_response; events := [AppHandle] |}) /\
  (forall slug, is_segment slug = true ->
     serve sample_collaborators {| req_method := GET; req_path := "/posts/" +:+ slug |}
     = Some {| res := fresh_response;
               events := [AppRender "/post" (VObj {[ "slug" := VStr slug ]})] |}).
Proof.
  apply (index_post_links_miss_route sample_collaborators first_page_props).
  - reflexivity.
  - reflexivity.
  - repeat constructor.
Defined.

(** *** From the call to the page *)

Ltac run_resolver_exact E c :=
  unfold resolved, bind, lift, call, await, console_log, emit, ret; simpl;
  destruct (butter E c) as [resp|e|]; simpl;
  [ destruct (get_prop resp "data") as [d|e']; simpl | | ];
  eexists; repeat split.

Lemma index_resolver_runs (E : collaborators) (query : value) :
  nullish query = false ->
  resolver_runs E (Pages.Index.getInitialProps E query) (index_call query).
Proof.
  intros Hq. unfold resolver_runs, Pages.Index.getInitialProps, index_call.
  rewrite (get_prop_defined query) by done.
  run_resolver_exact E (PostList (VObj {[ "page" := or_else (prop query "page") (VNum 1);
                                          "page_size" := VNum 10 ]})).
Qed.

Lemma post_resolver_runs (E : collaborators) (query : value) :
  nullish query = false ->
  resolver_runs E (Pages.Post.getInitialProps E query) (post_call query).
Proof.
  intros Hq. unfold resolver_runs, Pages.Post.getInitialProps, post_call.
  rewrite (get_prop_defined query) by done.
  run_resolver_exact E (PostRetrieve (prop query "slug")).
Qed.

Lemma categories_resolver_runs (E : collaborators) (query : value) :
  resolver_runs E (Pages.Categories.getInitialProps E query) CategoryList.
Proof.
  unfold resolver_runs, Pages.Categories.getInitialProps.
  run_resolver_exact E CategoryList.
Qed.

Lemma category_resolver_runs (E : collaborators) (query : value) :
  nullish query = false ->
  resolver_runs E (Pages.Category.getInitialProps E query) (category_call query).
Proof.
  intros Hq. unfold resolver_runs, Pages.Category.getInitialProps, category_call.
  rewrite (get_prop_defined query) by done.
  run_resolver_exact E (CategoryRetrieve (prop query "slug")
                          (VObj {[ "include" := VStr "recent_posts" ]})).
Qed.

Lemma product_resolver_runs (E : collaborators) (query : value) :
  nullish query = false ->
  resolver_runs E (Pages.Product.getInitialProps E query) (product_call query).
Proof.
  intros Hq. unfold resolver_runs, Pages.Product.getInitialProps, product_call.
  rewrite (get_prop_defined query) by done.
  run_resolver_exact E (PageRetrieve "product" (prop query "slug")).
Qed.

Lemma products_resolver_runs (E : collaborators) (query : value) :
  resolver_runs E (Pages.Products.getInitialProps E query) (PageList "product").
Proof.
  unfold resolver_runs, Pages.Products.getInitialProps.
  run_resolver_exact E (PageList "product").
Qed.

Lemma page_module_cases (pathname : string) gip render :
  page_module pathname = Some (gip, render) ->
  (gip, render) = (Pages.Index.getInitialProps, Pages.Index.render) \/
  (gip, render) = (Pages.Post.getInitialProps, Pages.Post.render) \/
  (gip, render) = (Pages.Categories.getInitialProps, Pages.Categories.render) \/
  (gip, render) = (Pages.Category.getInitialProps, Pages.Category.render) \/
  (gip, render) = (Pages.Product.getInitialProps, Pages.Product.render) \/
  (gip, render) = (Pages.Products.getInitialProps, Pages.Products.render).
Proof.
  unfold page_module.
  repeat match goal with
    | |- context [if ?b then _ else _] => destruct b
    end; intros [= <- <-]; tauto.
Qed.

Lemma bind_lift_run {A B} (m : js A) (f : A -> result B) (out : promise A)
    (w w0 : world) :
  m w0 = (out, w) ->
  bind m (fun a => lift (f a)) w0
  = (match out with
     | Fulfilled a => settle (f a)
     | Rejected e => Rejected e
     | Pending => Pending
     end, w).
Proof.
  intros H. unfold bind. rewrite H.
  destruct out as [a|e|]; try done.
  unfold lift. by destruct (f a).
Qed.

(** X4.  For each page of the [pages/] directory and every query object,
    the framework's run of the page makes exactly one call to the content
    API, one of the six the resolvers make, and leaves the response
    untouched.  The page is the [render] of the reply's [data] when the
    call is fulfilled, and a [render] that throws rejects the page; a call
    that is rejected rejects the page with the same reason and [render]
    is not run; a call that never settles leaves the page pending. *)
Theorem page_outcome_follows_call (E : collaborators) (pathname : string)
    (query : value) gip render :
  page_module pathname = Some (gip, render) ->
  nullish query = false ->
  exists page w c,
    render_page E pathname query = Some page /\
    In c (resolver_calls query) /\
    page start = (page_outcome render (resolved E c), w) /\
    api_calls (events w) = [c] /\
    res w = fresh_response.
Proof.
  intros Hpm Hq. unfold render_page. rewrite Hpm.
  assert (exists c, In c (resolver_calls query) /\ resolver_runs E (gip E query) c)
    as (c & Hin & w & Hrun & Hcalls & Hres).
  { apply page_module_cases in Hpm.
    destruct Hpm as [H|[H|[H|[H|[H|H]]]]]; injection H as -> ->.
    - exists (index_call query). split; [simpl; tauto|by apply index_resolver_runs].
    - exists (post_call query). split; [simpl; tauto|by apply post_resolver_runs].
    - exists CategoryList. split; [simpl; tauto|apply categories_resolver_runs].
    - exists (category_call query).
      split; [simpl; tauto|by apply category_resolver_runs].
    - exists (product_call query).
      split; [simpl; tauto|by apply product_resolver_runs].
    - exists (PageList "product").
      split; [simpl; tauto|apply products_resolver_runs]. }
  eexists _, w, c. split; [reflexivity|]. split; [done|].
  split; [|done].
  rewrite (bind_lift_run _ render (resolved E c) w start Hrun).
  reflexivity.
Qed.

Lemma page_outcome_follows_call_witness :
  exists page w c,
    render_page sample_collaborators "/post" sample_query = Some page /\
    In c (resolver_calls sample_query) /\
    page start = (page_outcome Pages.Post.render (resolved sample_collaborators c), w) /\
    api_calls (events w) = [c] /\
    res w = fresh_response.
Proof.
  apply (page_outcome_follows_call sample_collaborators "/post" sample_query
           Pages.Post.getInitialProps Pages.Post.render); reflexivity.
Defined.

Lemma page_run_fulfilled (E : collaborators) (pathname : string) (query : value)
    gip render (c : api_call) (resp : value) :
  page_module pathname = Some (gip, render) ->
  resolver_runs E (gip E query) c ->
  butter E c = Fulfilled resp ->
  nullish resp = false ->
  exists page w,
    render_page E pathname query = Some page /\
    page start = (settle (render (prop resp "data")), w) /\
    api_calls (events w) = [c] /\
    res w = fresh_response.
Proof.
  intros Hpm (w & Hrun & Hcalls & Hres) Hc Hresp.
  unfold render_page. rewrite Hpm. eexists _, w. split; [reflexivity|].
  split; [|done].
  rewrite (bind_lift_run _ render (resolved E c) w start Hrun).
  unfold resolved. rewrite Hc. by rewrite get_prop_defined.
Qed.

Lemma query_slug (slug : string) :
  prop (VObj {[ "slug" := VStr slug ]}) "slug" = VStr slug.
Proof. simpl. by rewrite lookup_singleton_eq. Qed.

(** *** The category page and the product page, from the request on *)

(** X5.  For a slug that is one path segment and names a category with an
    array of recent posts that are objects, [GET /posts/category/<slug>] is
    handed to the page [/category] with that slug; the page makes the one
    call [category.retrieve(slug, {include: 'recent_posts'})] and renders a
    tree whose document title and only [h1] both hold the category's name
    and whose anchors are, one per recent post in order, links to
    [/posts/<slug>] with the post's title as content.  Such a target, for a
    post slug that is one path segment, is handed to the post page. *)
Theorem category_detail_page (E : collaborators) (slug : string) (resp : value)
    (posts : list value) :
  is_segment slug = true ->
  butter E (CategoryRetrieve (VStr slug) (VObj {[ "include" := VStr "recent_posts" ]}))
  = Fulfilled resp ->
  prop (prop (prop resp "data") "data") "recent_posts" = VArr posts ->
  Forall (fun p => nullish p = false) posts ->
  let category := prop (prop resp "data") "data" in
  let query := VObj {[ "slug" := VStr slug ]} in
  serve E {| req_method := GET; req_path := "/posts/category/" +:+ slug |}
  = Some {| res := fresh_response; events := [AppRender "/category" query] |} /\
  (exists page tree w,
     render_page E "/category" query = Some page /\
     page start = (Fulfilled tree, w) /\
     api_calls (events w)
     = [CategoryRetrieve (VStr slug) (VObj {[ "include" := VStr "recent_posts" ]})] /\
     flat_map (select "title") (select "Head" tree)
     = [El "title" [] [Val (prop category "name")]] /\
     select "h1" tree = [El "h1" [] [Val (prop category "name")]] /\
     map link_view (select "a" tree)
     = map (fun p => (Some (VStr ("/posts/" +:+ to_string (prop p "slug"))),
                      [Val (prop p "title")])) posts) /\
  (forall s, is_segment s = true ->
     serve E {| req_method := GET; req_path := "/posts/" +:+ s |}
     = Some {| res := fresh_response;
               events := [AppRender "/post" (VObj {[ "slug" := VStr s ]})] |}).
Proof.
  intros Hseg Hcall Hposts Hall category query. split; [|split].
  - unfold serve. rewrite (dispatch_posts_category_slug slug Hseg). simpl.
    unfold posts_category_slug. by rewrite param_insert.
  - assert (nullish category = false) as Hcat by (by eapply prop_array_parent).
    assert (nullish (prop resp "data") = false) as Hprops
      by (by apply prop_defined_parent in Hcat).
    assert (nullish resp = false) as Hresp
      by (by apply prop_defined_parent in Hprops).
    pose proof (category_resolver_runs E query eq_refl) as Hrun.
    unfold category_call in Hrun. unfold query in Hrun at 2.
    rewrite query_slug in Hrun.
    destruct (page_run_fulfilled E "/category" query _ _ _ resp eq_refl Hrun Hcall Hresp)
      as (page & w & Hpage & Hstart & Hcalls & _).
    rewrite (category_render_tree _ posts Hposts Hall) in Hstart.
    eexists page, _, w. split; [done|]. split; [exact Hstart|].
    split; [done|]. unfold select. simpl.
    rewrite !flat_map_pick_imap_nil by (intros; reflexivity).
    split; [reflexivity|]. split; [reflexivity|].
    erewrite flat_map_pick_imap by (intros; reflexivity).
    by rewrite !app_nil_r, map_map.
  - intros s Hs. unfold serve. rewrite (dispatch_posts_slug s Hs).
    simpl. unfold posts_slug. by rewrite param_insert.
Qed.

Lemma category_detail_page_witness :
  let category := prop (prop sample_category_reply "data") "data" in
  let query := VObj {[ "slug" := VStr "news" ]} in
  serve shop_collaborators {| req_method := GET; req_path := "/posts/category/" +:+ "news" |}
  = Some {| res := fresh_response; events := [AppRender "/category" query] |} /\
  (exists page tree w,
     render_page shop_collaborators "/category" query = Some page /\
     page start = (Fulfilled tree, w) /\
     api_calls (events w)
     = [CategoryRetrieve (VStr "news") (VObj {[ "include" := VStr "recent_posts" ]})] /\
     flat_map (select "title") (select "Head" tree)
     = [El "title" [] [Val (prop category "name")]] /\
     select "h1" tree = [El "h1" [] [Val (prop category "name")]] /\
     map link_view (select "a" tree)
     = map (fun p => (Some (VStr ("/posts/" +:+ to_string (prop p "slug"))),
                      [Val (prop p "title")]))
         [VObj {[ "slug" := VStr "hello"; "title" := VStr "Hello" ]}]) /\
  (forall s, is_segment s = true ->
     serve shop_collaborators {| req_method := GET; req_path := "/posts/" +:+ s |}
     = Some {| res := fresh_response;
               events := [AppRender "/post" (VObj {[ "slug" := VStr s ]})] |}).
Proof.
  apply (category_detail_page shop_collaborators "news" sample_category_reply).
  - reflexivity.
  - reflexivity.
  - reflexivity.
  - repeat constructor.
Defined.

Lemma product_render_tree (props : value) :
  nullish (prop (prop props "data") "fields") = false ->
  Pages.Product.render props
  = Ok (El "div" []
          [El "Head" [] [El "title" [] [Val (prop (prop (prop props "data") "fields") "title")]];
           El "h1" [] [Val (prop (prop (prop props "data") "fields") "title")];
           El "div" [("dangerouslySetInnerHTML",
                      VObj {[ "__html" :=
                                prop (prop (prop props "data") "fields") "description" ]})] [];
           El "span" []
             [El "strong" [] [Val (VStr "Price : ")]; Val (VStr " ");
              Val (prop (prop (prop props "data") "fields") "price")]]).
Proof.
  intros Hf. unfold Pages.Product.render.
  assert (nullish (prop props "data") = false) as Hd
    by (by apply prop_defined_parent in Hf).
  assert (nullish props = false) as Hp by (by apply prop_defined_parent in Hd).
  rewrite (get_prop_defined props) by done. simpl.
  rewrite (get_prop_defined (prop props "data")) by done. simpl.
  rewrite !get_prop_defined by done. done.
Qed.

(** X6.  For a slug that is one path segment and names a product page with
    fields, [GET /products/<slug>] is handed to the page [/product] with
    that slug; the page makes the one call [page.retrieve('product', slug)]
    and renders a tree whose document title and only [h1] both hold the
    field [title], whose only raw-HTML element sets the field
    [description] as its inner HTML with no child of its own, and whose
    only [span] holds the label [Price : ], a space and the field
    [price]. *)
Theorem product_detail_page (E : collaborators) (slug : string) (resp : value) :
  is_segment slug = true ->
  butter E (PageRetrieve "product" (VStr slug)) = Fulfilled resp ->
  nullish (prop (prop (prop resp "data") "data") "fields") = false ->
  let fields := prop (prop (prop resp "data") "data") "fields" in
  let query := VObj {[ "slug" := VStr slug ]} in
  serve E {| req_method := GET; req_path := "/products/" +:+ slug |}
  = Some {| res := fresh_response; events := [AppRender "/product" query] |} /\
  exists page tree w,
    render_page E "/product" query = Some page /\
    page start = (Fulfilled tree, w) /\
    api_calls (events w) = [PageRetrieve "product" (VStr slug)] /\
    flat_map (select "title") (select "Head" tree)
    = [El "title" [] [Val (prop fields "title")]] /\
    select "h1" tree = [El "h1" [] [Val (prop fields "title")]] /\
    map raw_html_view (raw_html_elements tree)
    = [(Some (VObj {[ "__html" := prop fields "description" ]}), [])] /\
    map children (select "span" tree)
    = [[El "strong" [] [Val (VStr "Price : ")]; Val (VStr " ");
        Val (prop fields "price")]].
Proof.
  intros Hseg Hcall Hfields fields query. split.
  - unfold serve. rewrite (dispatch_products_slug slug Hseg). simpl.
    unfold products_slug. by rewrite param_insert.
  - assert (nullish (prop (prop resp "data") "data") = false) as Hprod
      by (by apply prop_defined_parent in Hfields).
    assert (nullish (prop resp "data") = false) as Hprops
      by (by apply prop_defined_parent in Hprod).
    assert (nullish resp = false) as Hresp
      by (by apply prop_defined_parent in Hprops).
    pose proof (product_resolver_runs E query eq_refl) as Hrun.
    unfold product_call in Hrun. unfold query in Hrun at 2.
    rewrite query_slug in Hrun.
    destruct (page_run_fulfilled E "/product" query _ _ _ resp eq_refl Hrun Hcall Hresp)
      as (page & w & Hpage & Hstart & Hcalls & _).
    rewrite (product_render_tree _ Hfields) in Hstart.
    eexists page, _, w. split; [done|]. split; [exact Hstart|].
    split; [done|]. repeat split.
Qed.

Lemma product_detail_page_witness :
  let fields := prop (prop (prop sample_product_reply "data") "data") "fields" in
  let query := VObj {[ "slug" := VStr "widget" ]} in
  serve shop_collaborators {| req_method := GET; req_path := "/products/" +:+ "widget" |}
  = Some {| res := fresh_response; events := [AppRender "/product" query] |} /\
  exists page tree w,
    render_page shop_collaborators "/product" query = Some page /\
    page start = (Fulfilled tree, w) /\
    api_calls (events w) = [PageRetrieve "product" (VStr "widget")] /\
    flat_map (select "title") (select "Head" tree)
    = [El "title" [] [Val (prop fields "title")]] /\
    select "h1" tree = [El "h1" [] [Val (prop fields "title")]] /\
    map raw_html_view (raw_html_elements tree)
    = [(Some (VObj {[ "__html" := prop fields "description" ]}), [])] /\
    map children (select "span" tree)
    = [[El "strong" [] [Val (VStr "Price : ")]; Val (VStr " ");
        Val (prop fields "price")]].
Proof.
  apply (product_detail_page shop_collaborators "widget" sample_product_reply);
    reflexivity.
Defined.

Example product_detail_sample :
  exists page tree w,
    render_page shop_collaborators "/product" (VObj {[ "slug" := VStr "widget" ]})
    = Some page /\
    page start = (Fulfilled tree, w) /\
    select "h1" tree = [El "h1" [] [Val (VStr "Widget")]] /\
    map children (select "span" tree)
    = [[El "strong" [] [Val (VStr "Price : ")]; Val (VStr " "); Val (VNum 12)]].
Proof. eexists _, _, _. repeat split. Qed.

(** *** Every way a request can go *)

Lemma feed_run (E : collaborators) (kind : string) (params : gmap string string) :
  snd (feed kind params E start) = feed_world E kind.
Proof.
  unfold feed, feed_world, bind, call, lift, discard, emit, ret, get_prop. simpl.
  destruct (butter E (FeedRetrieve kind)) as [s|e|]; simpl; try done.
  destruct (nullish s) eqn:Hs; simpl.
  - by rewrite (prop_nullish s "data" Hs).
  - by destruct (nullish (prop s "data")).
Qed.



Example feed_numeric_payload :
  serve {| butter := fun _ => Fulfilled (VObj {[ "data" := VObj {[ "data" := VNum 404 ]} ]});
           app_prepare := Pending |}
    {| req_method := GET; req_path := "/sitemap" |}
  = Some {| res := {| status := 404; body := Some (StatusText 404); ended := true |};
            events := [ApiCall (FeedRetrieve "sitemap")] |}.
Proof. reflexivity. Qed.

(** The handler a [GET] or a [HEAD] request is given: one of the table's
    nine for [GET], whatever the path. *)
Lemma get_dispatch_cases (m : method) (target : string) :
  m = GET \/ m = HEAD ->
  exists params,
    In (dispatch routes {| req_method := m; req_path := target |})
      [Some (posts params); Some (posts_slug params);
       Some (posts_categories params); Some (posts_category_slug params);
       Some (products_slug params); Some (sitemap params); Some (atom params);
       Some (rss params); Some (fallback params)].
Proof.
  intros Hm. unfold routes, dispatch.
  cbn [verb path run req_method req_path].
  assert (verb_accepts GET m = true /\ verb_accepts POST m = false) as [-> ->]
    by (destruct Hm as [-> | ->]; done).
  change (match_path Star target) with (Some (∅ : gmap string string)).
  repeat match goal with
    | |- context [match match_path ?p ?s with _ => _ end] =>
        destruct (match_path p s) as [params|]
    end.
  all: first [ exists params; simpl; tauto | exists ∅; simpl; tauto ].
Qed.

Lemma post_dispatch_cases (target : string) :
  dispatch routes {| req_method := POST; req_path := target |} = None \/
  exists params,
    dispatch routes {| req_method := POST; req_path := target |}
    = Some (webhook_receiver params).
Proof.
  unfold routes, dispatch.
  cbn [verb path run req_method req_path verb_accepts].
  destruct (match_path _ target) as [params|]; eauto.
Qed.

Lemma other_dispatch_none (m : method) (path : string) :
  m = PUT \/ m = DELETE ->
  dispatch routes {| req_method := m; req_path := path |} = None.
Proof. intros [-> | ->]; reflexivity. Qed.

Lemma webhook_run (E : collaborators) (params : gmap string string) :
  let w := snd (webhook_receiver params E start) in
  api_calls (events w) = [] /\ body (res w) = None /\
  forallb (fun e => negb (is_unhandled e)) (events w) = true.
Proof.
  unfold webhook_receiver, bind, prepare, console_log, emit, ret. simpl.
  destruct (app_prepare E) as [[]|e|]; done.
Qed.

Lemma feed_world_calls (E : collaborators) (kind : string) :
  api_calls (events (feed_world E kind)) = [FeedRetrieve kind] /\
  ~ In AppPrepare (events (feed_world E kind)).
Proof.
  unfold feed_world.
  destruct (butter E (FeedRetrieve kind)) as [s|e|]; simpl.
  - destruct (nullish (prop s "data")); simpl; (split; [done|]);
      intuition discriminate.
  - split; [done|]. intuition discriminate.
  - split; [done|]. intuition discriminate.
Qed.


(** The ways a [GET] or [HEAD] request goes. *)
Lemma get_serve_cases (E : collaborators) (m : method) (path : string) :
  m = GET \/ m = HEAD ->
  exists w,
    serve E {| req_method := m; req_path := path |} = Some w /\
    ((res w = fresh_response /\ events w = [AppHandle]) \/
     (res w = fresh_response /\
      exists page query, In page rendered_pages /\ events w = [AppRender page query]) \/
     (exists kind, In kind feed_kinds /\ w = feed_world E kind)).
Proof.
  intros Hm. destruct (get_dispatch_cases m path Hm) as [params Hin].
  unfold serve. cbn [In] in Hin.
  destruct Hin as [H|[H|[H|[H|[H|[H|[H|[H|[H|[]]]]]]]]]]; rewrite <- H; simpl;
    eexists; (split; [reflexivity|]).
  - right. left. split; [done|]. do 2 eexists. split; [|reflexivity]. simpl. tauto.
  - right. left. split; [done|]. do 2 eexists. split; [|reflexivity]. simpl. tauto.
  - right. left. split; [done|]. do 2 eexists. split; [|reflexivity]. simpl. tauto.
  - right. left. split; [done|]. do 2 eexists. split; [|reflexivity]. simpl. tauto.
  - right. left. split; [done|]. do 2 eexists. split; [|reflexivity]. simpl. tauto.
  - right. right. exists "sitemap". split; [simpl; tauto|]. apply feed_run.
  - right. right. exists "atom". split; [simpl; tauto|]. apply feed_run.
  - right. right. exists "rss". split; [simpl; tauto|]. apply feed_run.
  - left. done.
Qed.





Example categories_path_goes_to_post_page :
  events <$> serve sample_collaborators
               {| req_method := GET; req_path := "/posts/categories" |}
  = Some [AppRender "/post" (VObj {[ "slug" := VStr "categories" ]})].
Proof. reflexivity. Qed.

(** X9.  Only a [POST] reinitializes the application: whatever the path and
    the collaborators, a request whose handling calls [app.prepare()] is a
    [POST]; a [GET] on [/webhook-receiver] goes to the default handler. *)
Theorem prepare_only_on_post (E : collaborators) (rq : request) (w : world) :
  serve E rq = Some w ->
  In AppPrepare (events w) ->
  req_method rq = POST.
Proof.
  destruct rq as [m path]. simpl. intros Hs Hin.
  destruct m; [| |reflexivity| |].
  - destruct (get_serve_cases E GET path (or_introl eq_refl))
      as (w' & Hs' & Hcases).
    rewrite Hs in Hs'. injection Hs' as <-.
    destruct Hcases as [[_ He]|[[_ (pg & q & _ & He)]|(k & _ & ->)]].
    + rewrite He in Hin. destruct Hin as [H|[]]. discriminate.
    + rewrite He in Hin. destruct Hin as [H|[]]. discriminate.
    + by apply feed_world_calls in Hin.
  - destruct (get_serve_cases E HEAD path (or_intror eq_refl))
      as (w' & Hs' & Hcases).
    rewrite Hs in Hs'. injection Hs' as <-.
    destruct Hcases as [[_ He]|[[_ (pg & q & _ & He)]|(k & _ & ->)]].
    + rewrite He in Hin. destruct Hin as [H|[]]. discriminate.
    + rewrite He in Hin. destruct Hin as [H|[]]. discriminate.
    + by apply feed_world_calls in Hin.
  - unfold serve in Hs. by rewrite (other_dispatch_none PUT path) in Hs by tauto.
  - unfold serve in Hs. by rewrite (other_dispatch_none DELETE path) in Hs by tauto.
Qed.

Lemma prepare_only_on_post_witness :
  req_method webhook_request = POST.
Proof.
  apply (prepare_only_on_post sample_collaborators webhook_request
           {| res := {| status := 200; body := None; ended := true |};
              events := [ConsoleLog [VStr "a post has been modified"]; AppPrepare;
                         ConsoleLog [VStr "app refreshed"]] |}).
  - reflexivity.
  - simpl. right. left. reflexivity.
Defined.

Example get_on_webhook_path :
  serve sample_collaborators {| req_method := GET; req_path := "/webhook-receiver" |}
  = Some {| res := fresh_response; events := [AppHandle] |}.
Proof. reflexivity. Qed.

(** X10.  The server's own code calls the content API, writes a body and
    can leave a rejection unhandled on the feed routes only: for any request
    it takes, either it made no call, wrote no body and left no rejection
    unhandled, or the request ended as a feed request of one of the three
    kinds, with the single call [feed.retrieve(kind)]. *)
Theorem api_and_body_only_on_feeds (E : collaborators) (rq : request) (w : world) :
  serve E rq = Some w ->
  (api_calls (events w) = [] /\ body (res w) = None /\
   forallb (fun e => negb (is_unhandled e)) (events w) = true) \/
  (exists kind, In kind feed_kinds /\ w = feed_world E kind /\
                api_calls (events w) = [FeedRetrieve kind]).
Proof.
  destruct rq as [m path]. intros Hs.
  assert (m = GET \/ m = HEAD ->
          (api_calls (events w) = [] /\ body (res w) = None /\
           forallb (fun e => negb (is_unhandled e)) (events w) = true) \/
          (exists kind, In kind feed_kinds /\ w = feed_world E kind /\
                        api_calls (events w) = [FeedRetrieve kind])) as Hget.
  { intros Hm. destruct (get_serve_cases E m path Hm) as (w' & Hs' & Hcases).
    rewrite Hs in Hs'. injection Hs' as <-.
    destruct Hcases as [[Hr He]|[[Hr (pg & q & _ & He)]|(k & Hk & ->)]].
    - left. by rewrite Hr, He.
    - left. by rewrite Hr, He.
    - right. exists k. split; [done|]. split; [done|]. apply feed_world_calls. }
  destruct m; try (apply Hget; tauto).
  - left. unfold serve in Hs.
    destruct (post_dispatch_cases path) as [Hn|[params Hp]].
    + by rewrite Hn in Hs.
    + rewrite Hp in Hs. simpl in Hs. injection Hs as <-. apply webhook_run.
  - unfold serve in Hs. by rewrite (other_dispatch_none PUT path) in Hs by tauto.
  - unfold serve in Hs. by rewrite (other_dispatch_none DELETE path) in Hs by tauto.
Qed.

Lemma api_and_body_only_on_feeds_witness :
  (api_calls (events (feed_world sample_collaborators "rss")) = [] /\
   body (res (feed_world sample_collaborators "rss")) = None /\
   forallb (fun e => negb (is_unhandled e))
     (events (feed_world sample_collaborators "rss")) = true) \/
  (exists kind, In kind feed_kinds /\
                feed_world sample_collaborators "rss"
                = feed_world sample_collaborators kind /\
                api_calls (events (feed_world sample_collaborators "rss"))
                = [FeedRetrieve kind]).
Proof.
  apply (api_and_body_only_on_feeds sample_collaborators
           {| req_method := GET; req_path := "/rss" |}).
  reflexivity.
Defined.

(** *** The document head of a post *)

(** X11.  On a post it can read, the post page puts in its [Head] a
    [title] that holds the post's [seo_title], not its [title], and two
    [meta] elements, [description] with the post's [meta_description]
    and [og:image] with its [featured_image]; the [h1] holds the [title].
    The first version of [render] has no [Head]: no document title, no
    [meta]. *)
Theorem post_head_metadata (props : value) :
  nullish (prop props "data") = false ->
  let post := prop props "data" in
  exists tree plain,
    Pages.Post.render props = Ok tree /\
    Pages.Post.render_plain props = Ok plain /\
    map children (select "Head" tree)
    = [[El "title" [] [Val (prop post "seo_title")];
        El "meta" [("name", VStr "description");
                   ("content", prop post "meta_description")] [];
        El "meta" [("name", VStr "og:image");
                   ("content", prop post "featured_image")] []]] /\
    map meta_view (select "meta" tree)
    = [(Some (VStr "description"), Some (prop post "meta_description"));
       (Some (VStr "og:image"), Some (prop post "featured_image"))] /\
    select "h1" tree = [El "h1" [] [Val (prop post "title")]] /\
    select "Head" plain = [] /\ select "title" plain = [] /\ select "meta" plain = [].
Proof.
  intros Hpost post.
  assert (nullish props = false) as Hp by (by apply prop_defined_parent in Hpost).
  unfold Pages.Post.render, Pages.Post.render_plain.
  rewrite !(get_prop_defined props) by done. simpl.
  rewrite !(get_prop_defined (prop props "data")) by done. simpl.
  eexists _, _. repeat split.
Qed.

Lemma post_head_metadata_witness :
  let props :=
    VObj {[ "data" := VObj {[ "title" := VStr "Hello"; "seo_title" := VStr "Hello | Blog";
                              "body" := VStr "<p>Hi</p>" ]} ]} in
  let post := prop props "data" in
  exists tree plain,
    Pages.Post.render props = Ok tree /\
    Pages.Post.render_plain props = Ok plain /\
    map children (select "Head" tree)
    = [[El "title" [] [Val (prop post "seo_title")];
        El "meta" [("name", VStr "description");
                   ("content", prop post "meta_description")] [];
        El "meta" [("name", VStr "og:image");
                   ("content", prop post "featured_image")] []]] /\
    map meta_view (select "meta" tree)
    = [(Some (VStr "description"), Some (prop post "meta_description"));
       (Some (VStr "og:image"), Some (prop post "featured_image"))] /\
    select "h1" tree = [El "h1" [] [Val (prop post "title")]] /\
    select "Head" plain = [] /\ select "title" plain = [] /\ select "meta" plain = [].
Proof.
  apply (post_head_metadata
           (VObj {[ "data" := VObj {[ "title" := VStr "Hello";
                                      "seo_title" := VStr "Hello | Blog";
                                      "body" := VStr "<p>Hi</p>" ]} ]})).
  reflexivity.
Defined.

(** *** The index page behind [/posts] *)

Lemma dispatch_posts (target : string) :
  path_segments target = ["posts"] ->
  dispatch routes {| req_method := GET; req_path := target |} = Some (posts ∅).
Proof.
  intros H. unfold routes, dispatch.
  cbn [verb path run req_method req_path verb_accepts match_path].
  rewrite H. reflexivity.
Qed.

Lemma page_outcome_run_index (E : collaborators) (query : value) :
  nullish query = false ->
  exists page w,
    render_page E "/index" query = Some page /\
    page start
    = (page_outcome Pages.Index.render (resolved E (index_call query)), w) /\
    api_calls (events w) = [index_call query].
Proof.
  intros Hq. destruct (index_resolver_runs E query Hq) as (w & Hrun & Hcalls & _).
  eexists _, w. split; [reflexivity|]. split; [|done].
  by rewrite (bind_lift_run _ Pages.Index.render _ w start Hrun).
Qed.

(** X12.  A [GET] whose path is [/posts] (with or without a trailing slash)
    is handed to the index page with a query that holds an undefined
    [slug] and nothing else: the handler builds the query from the route
    parameters alone.  The index page then asks for page 1, in pages of
    10. *)
Theorem posts_route_first_page (E : collaborators) (target : string) :
  path_segments target = ["posts"] ->
  let query := VObj {[ "slug" := VUndef ]} in
  serve E {| req_method := GET; req_path := target |}
  = Some {| res := fresh_response; events := [AppRender "/index" query] |} /\
  prop query "page" = VUndef /\
  exists page out w,
    render_page E "/index" query = Some page /\
    page start = (out, w) /\
    api_calls (events w)
    = [PostList (VObj {[ "page" := VNum 1; "page_size" := VNum 10 ]})].
Proof.
  intros Hseg query. split; [|split].
  - unfold serve. rewrite (dispatch_posts target Hseg). reflexivity.
  - reflexivity.
  - destruct (page_outcome_run_index E query eq_refl) as (page & w & Hp & Hs & Hc).
    exists page, (page_outcome Pages.Index.render (resolved E (index_call query))), w.
    split; [done|]. split; [done|]. rewrite Hc. reflexivity.
Qed.

Lemma posts_route_first_page_witness :
  let query := VObj {[ "slug" := VUndef ]} in
  serve sample_collaborators {| req_method := GET; req_path := "/posts/" |}
  = Some {| res := fresh_response; events := [AppRender "/index" query] |} /\
  prop query "page" = VUndef /\
  exists page out w,
    render_page sample_collaborators "/index" query = Some page /\
    page start = (out, w) /\
    api_calls (events w)
    = [PostList (VObj {[ "page" := VNum 1; "page_size" := VNum 10 ]})].
Proof.
  apply (posts_route_first_page sample_collaborators "/posts/"). reflexivity.
Defined.

(** *** Keys of the list items *)

(** X13.  The items of the categories, products and category pages are
    created with their position in the list as [key]: on entries each page
    can read, the keys of the rendered tree are the strings [0], [1],
    [2], ... in order, one per entry, and they are kept beside the props,
    not among them.  The items of the index page carry no key. *)
Theorem list_items_keyed :
  (forall props entries,
     prop props "data" = VArr entries ->
     Forall (fun c => nullish c = false) entries ->
     exists tree, Pages.Categories.render props = Ok tree /\
       keys tree = imap (fun n _ => show_Z (Z.of_nat n)) entries /\
       pick (has_prop "key") tree = []) /\
  (forall props entries,
     prop props "data" = VArr entries ->
     Forall (fun p => nullish p = false /\ nullish (prop p "fields") = false) entries ->
     exists tree, Pages.Products.render props = Ok tree /\
       keys tree = imap (fun n _ => show_Z (Z.of_nat n)) entries /\
       pick (has_prop "key") tree = []) /\
  (forall props entries,
     prop (prop props "data") "recent_posts" = VArr entries ->
     Forall (fun p => nullish p = false) entries ->
     exists tree, Pages.Category.render props = Ok tree /\
       keys tree = imap (fun n _ => show_Z (Z.of_nat n)) entries /\
       pick (has_prop "key") tree = []) /\
  (forall props entries,
     nullish (prop props "meta") = false ->
     prop props "data" = VArr entries ->
     Forall (fun p => nullish p = false) entries ->
     exists tree, Pages.Index.render props = Ok tree /\ keys tree = []).
Proof.
  repeat apply conj.
  - intros props entries Hdata Hall.
    eexists. split; [by apply categories_render_tree|]. simpl.
    rewrite flat_map_pick_imap_nil by (intros; reflexivity).
    rewrite !app_nil_r. split; [|done].
    by erewrite flat_map_keys_imap by (intros; reflexivity).
  - intros props entries Hdata Hall.
    eexists. split; [by apply products_render_tree|]. simpl.
    rewrite flat_map_pick_imap_nil by (intros; reflexivity).
    rewrite !app_nil_r. split; [|done].
    by erewrite flat_map_keys_imap by (intros; reflexivity).
  - intros props entries Hposts Hall.
    eexists. split; [by apply category_render_tree|]. simpl.
    rewrite flat_map_pick_imap_nil by (intros; reflexivity).
    rewrite !app_nil_r. split; [|done].
    by erewrite flat_map_keys_imap by (intros; reflexivity).
  - intros props entries Hmeta Hdata Hall.
    eexists. split; [by apply index_render_tree|]. simpl.
    rewrite <- (imap_const (fun post => El "div" [] _) entries).
    erewrite flat_map_keys_imap_nil by (intros; reflexivity). simpl.
    unfold and_then.
    by destruct (truthy (prop (prop props "meta") "previous_page"));
      destruct (truthy (prop (prop props "meta") "next_page")).
Qed.

Lemma list_items_keyed_witness :
  (exists tree,
     Pages.Categories.render (VObj {[ "data" := VArr sample_categories ]}) = Ok tree /\
     keys tree = imap (fun n _ => show_Z (Z.of_nat n)) sample_categories /\
     pick (has_prop "key") tree = []) /\
  (exists tree,
     Pages.Products.render (VObj {[ "data" := VArr sample_products ]}) = Ok tree /\
     keys tree = imap (fun n _ => show_Z (Z.of_nat n)) sample_products /\
     pick (has_prop "key") tree = []) /\
  (exists tree,
     Pages.Category.render (prop sample_category_reply "data") = Ok tree /\
     keys tree
     = imap (fun n _ => show_Z (Z.of_nat n))
         [VObj {[ "slug" := VStr "hello"; "title" := VStr "Hello" ]}] /\
     pick (has_prop "key") tree = []) /\
  (exists tree, Pages.Index.render first_page_props = Ok tree /\ keys tree = []).
Proof.
  destruct list_items_keyed as (Hc & Hp & Hk & Hi).
  split; [|split; [|split]].
  - apply (Hc (VObj {[ "data" := VArr sample_categories ]}) sample_categories).
    + reflexivity.
    + repeat constructor.
  - apply (Hp (VObj {[ "data" := VArr sample_products ]}) sample_products).
    + reflexivity.
    + repeat constructor.
  - apply (Hk (prop sample_category_reply "data")).
    + reflexivity.
    + repeat constructor.
  - apply (Hi first_page_props
             [VObj {[ "slug" := VStr "hello"; "title" := VStr "Hello" ]}]).
    + reflexivity.
    + reflexivity.
    + repeat constructor.
Defined.

Example categories_keys_sample :
  exists tree,
    Pages.Categories.render (VObj {[ "data" := VArr sample_categories ]}) = Ok tree /\
    keys tree = ["0"; "1"].
Proof. eexists. split; reflexivity. Qed.

(** *** An entry without a slug *)

(** X14.  An entry of the category list that has no [slug] still gets its
    link: the template literal turns the missing slug into the text
    [undefined], so the link goes to [/posts/category/undefined]; the
    server hands that to the category page, which asks the content API
    for the category named [undefined]. *)
Theorem category_without_slug (E : collaborators) (props : value)
    (categories : list value) (c : value) :
  prop props "data" = VArr categories ->
  Forall (fun c => nullish c = false) categories ->
  In c categories ->
  prop c "slug" = VUndef ->
  let query := VObj {[ "slug" := VStr "undefined" ]} in
  (exists tree,
     Pages.Categories.render props = Ok tree /\
     In (Some (VStr "/posts/category/undefined"), [Val (prop c "name")])
        (map link_view (select "a" tree))) /\
  serve E {| req_method := GET; req_path := "/posts/category/undefined" |}
  = Some {| res := fresh_response; events := [AppRender "/category" query] |} /\
  calls_of E (Pages.Category.getInitialProps E query)
  = [CategoryRetrieve (VStr "undefined") (VObj {[ "include" := VStr "recent_posts" ]})].
Proof.
  intros Hdata Hall Hin Hslug query. split; [|split].
  - eexists. split; [by apply categories_render_tree|].
    unfold select. simpl.
    erewrite flat_map_pick_imap by (intros; reflexivity).
    rewrite app_nil_r, map_map. apply in_map_iff. exists c. split; [|done].
    unfold link_view. simpl. by rewrite Hslug.
  - reflexivity.
  - destruct (category_resolver_runs E query eq_refl) as (w & Hrun & Hcalls & _).
    unfold calls_of. rewrite Hrun. simpl. rewrite Hcalls.
    unfold category_call, query. by rewrite query_slug.
Qed.

Lemma category_without_slug_witness :
  let props := VObj {[ "data" := VArr [VObj {[ "name" := VStr "Misc" ]}] ]} in
  let c := VObj {[ "name" := VStr "Misc" ]} in
  let query := VObj {[ "slug" := VStr "undefined" ]} in
  (exists tree,
     Pages.Categories.render props = Ok tree /\
     In (Some (VStr "/posts/category/undefined"), [Val (prop c "name")])
        (map link_view (select "a" tree))) /\
  serve sample_collaborators
    {| req_method := GET; req_path := "/posts/category/undefined" |}
  = Some {| res := fresh_response; events := [AppRender "/category" query] |} /\
  calls_of sample_collaborators
    (Pages.Category.getInitialProps sample_collaborators query)
  = [CategoryRetrieve (VStr "undefined") (VObj {[ "include" := VStr "recent_posts" ]})].
Proof.
  apply (category_without_slug sample_collaborators
           (VObj {[ "data" := VArr [VObj {[ "name" := VStr "Misc" ]}] ]})
           [VObj {[ "name" := VStr "Misc" ]}]).
  - reflexivity.
  - repeat constructor.
  - left. reflexivity.
  - reflexivity.
Defined.

(** *** A resolver given no query *)

(** X15.  Given a query that is [null] or [undefined], the resolvers of the
    index, post, category and product pages throw a [TypeError] on reading
    it and are rejected before any call to the content API is made (the
    category page has logged the query by then).  The resolvers of the
    categories and products pages never read the query and make their
    call all the same; the route [/posts/categories] hands the page an
    undefined query. *)
Theorem resolvers_without_query (E : collaborators) (query : value) :
  nullish query = true ->
  Pages.Index.getInitialProps E query start = (Rejected TypeError, start) /\
  Pages.Post.getInitialProps E query start = (Rejected TypeError, start) /\
  Pages.Category.getInitialProps E query start
  = (Rejected TypeError,
     {| res := fresh_response; events := [ConsoleLog [VStr "query: "; query]] |}) /\
  Pages.Product.getInitialProps E query start = (Rejected TypeError, start) /\
  resolver_runs E (Pages.Categories.getInitialProps E query) CategoryList /\
  resolver_runs E (Pages.Products.getInitialProps E query) (PageList "product") /\
  snd (posts_categories ∅ E start)
  = {| res := fresh_response; events := [AppRender "/categories" VUndef] |}.
Proof.
  intros Hq.
  unfold Pages.Index.getInitialProps, Pages.Post.getInitialProps,
    Pages.Category.getInitialProps, Pages.Product.getInitialProps.
  rewrite !(get_prop_nullish query) by done.
  repeat apply conj; try reflexivity.
  - apply categories_resolver_runs.
  - apply products_resolver_runs.
Qed.

Lemma resolvers_without_query_witness :
  Pages.Index.getInitialProps sample_collaborators VUndef start
  = (Rejected TypeError, start) /\
  Pages.Post.getInitialProps sample_collaborators VUndef start
  = (Rejected TypeError, start) /\
  Pages.Category.getInitialProps sample_collaborators VUndef start
  = (Rejected TypeError,
     {| res := fresh_response; events := [ConsoleLog [VStr "query: "; VUndef]] |}) /\
  Pages.Product.getInitialProps sample_collaborators VUndef start
  = (Rejected TypeError, start) /\
  resolver_runs sample_collaborators
    (Pages.Categories.getInitialProps sample_collaborators VUndef) CategoryList /\
  resolver_runs sample_collaborators
    (Pages.Products.getInitialProps sample_collaborators VUndef) (PageList "product") /\
  snd (posts_categories ∅ sample_collaborators start)
  = {| res := fresh_response; events := [AppRender "/categories" VUndef] |}.
Proof.
  apply (resolvers_without_query sample_collaborators VUndef). reflexivity.
Defined.
